(** * IRT analysis service: fitting fallback, model cache, parameter cleaning

    Shallow embedding of the R core of the platform:
    - [r_service/plumber.R]  (the cached HTTP service), and
    - [r_scripts/irt_analysis.R] (the standalone script, module [Standalone]).

    R doubles are modelled as extended rationals with the two missing
    values [NA] and [NaN], R conditions as an error result, the global
    model cache and the response object as an explicit world threaded
    through a small state-and-error monad.  The estimation engine (package mirt), the file system and the
    R built-ins whose exact output is platform dependent ([round],
    [as.character], the rounded sums of doubles) are collaborators, gathered
    in the class [Env].  Calls of [message] only write to the log and are
    left out. *)

From Stdlib Require Import QArith Qabs Qround Lia Lqa Ascii.
From stdpp Require Import gmap strings list pretty.

Open Scope Q_scope.

(** ** R numeric and logical values *)

(** A double: the missing value [NA], not-a-number [NaN], minus infinity, a
    finite value, plus infinity.  [is.na] is [TRUE] for [NA] and for [NaN],
    and a value is called missing when it is one of the two; [unique],
    [%in%] and [match] tell the two apart. *)
Inductive num : Type :=
  | NA
  | NaN
  | NInf
  | Fin (q : Q)
  | PInf.

(** A logical: [None] is the logical [NA]. *)
Definition lgl : Type := option bool.

(** [is.na(x)]. *)
Definition is_na (x : num) : bool :=
  match x with NA | NaN => true | _ => false end.

Definition Qltb (p q : Q) : bool := negb (Qle_bool q p).

(** [x < y] on doubles: [NA] as soon as one side is [NA] or [NaN]. *)
Definition num_lt (x y : num) : lgl :=
  match x, y with
  | NA, _ | _, NA | NaN, _ | _, NaN => None
  | Fin p, Fin q => Some (Qltb p q)
  | NInf, NInf | PInf, _ | Fin _, NInf => Some false
  | NInf, _ | Fin _, PInf => Some true
  end.

(** [x > y]. *)
Definition num_gt (x y : num) : lgl := num_lt y x.

(** [x == y] on doubles. *)
Definition num_eq (x y : num) : lgl :=
  match x, y with
  | NA, _ | _, NA | NaN, _ | _, NaN => None
  | Fin p, Fin q => Some (Qeq_bool p q)
  | NInf, NInf | PInf, PInf => Some true
  | _, _ => Some false
  end.

(** [abs(x)]. *)
Definition num_abs (x : num) : num :=
  match x with
  | NA => NA
  | NaN => NaN
  | NInf | PInf => PInf
  | Fin q => Fin (Qabs q)
  end.

(** [x + y] in exact arithmetic; the sum of opposite infinities is [NaN].
    Of two missing operands the left one is returned: R leaves open which
    of [NA] and [NaN] such a sum is, and no sum of the code has a missing
    right operand. *)
Definition num_add (x y : num) : num :=
  match x, y with
  | NA, _ => NA
  | NaN, _ => NaN
  | _, NA => NA
  | _, NaN => NaN
  | Fin p, Fin q => Fin (p + q)
  | NInf, PInf | PInf, NInf => NaN
  | NInf, _ | _, NInf => NInf
  | PInf, _ | _, PInf => PInf
  end.

(** The vectorised [|], [&] and [!] of R, three-valued. *)
Definition lgl_or (a b : lgl) : lgl :=
  match a, b with
  | Some true, _ | _, Some true => Some true
  | Some false, Some false => Some false
  | _, _ => None
  end.

Definition lgl_and (a b : lgl) : lgl :=
  match a, b with
  | Some false, _ | _, Some false => Some false
  | Some true, Some true => Some true
  | _, _ => None
  end.

Definition lgl_not (a : lgl) : lgl := negb <$> a.

(** [any(v)]: [TRUE] if some element is, else [NA] if some element is
    missing, else [FALSE]. *)
Definition lgl_any (v : list lgl) : lgl := foldr lgl_or (Some false) v.

(** [sum(v)] of a logical vector: the number of [TRUE], missing as soon as
    one element is. *)
Fixpoint lgl_sum (v : list lgl) : option nat :=
  match v with
  | [] => Some 0%nat
  | None :: _ => None
  | Some b :: v' => (fun n => if b then S n else n) <$> lgl_sum v'
  end.

(** The right operand of a [&&] whose left operand has already excluded the
    missing case: [TRUE] exactly when the comparison is [TRUE]. *)
Definition isTRUE (a : lgl) : bool :=
  match a with Some true => true | _ => false end.

(** A count read as a double, as in [ncol(resp)] or [10]. *)
Definition num_of_nat (n : nat) : num := Fin (inject_Z (Z.of_nat n)).

(** ** Matrices with named columns *)

Record named_matrix : Type := {
  colnames : list string;
  mrows : list (list num)
}.

Fixpoint col_index (name : string) (cn : list string) : option nat :=
  match cn with
  | [] => None
  | c :: cn' => if String.eqb c name then Some 0%nat else S <$> col_index name cn'
  end.

(** [name %in% names]. *)
Definition has_name (name : string) (cn : list string) : bool :=
  match col_index name cn with Some _ => true | None => false end.

(** [as.numeric(v[name])] on a named vector: [NA] when the name is absent. *)
Definition vec_get (cn : list string) (v : list num) (name : string) : num :=
  match col_index name cn with
  | Some j => nth j v NA
  | None => NA
  end.

(** ** Conditions and results *)

(** An R condition, by its message. *)
Record condition : Type := { message : string }.

Inductive result (A : Type) : Type :=
  | Ok (a : A)
  | Err (e : condition).
Arguments Ok {A} a.
Arguments Err {A} e.

(** [m[, name]]: a column of a matrix; an unknown name is an error. *)
Definition matrix_col (m : named_matrix) (name : string) : result (list num) :=
  match col_index name (colnames m) with
  | Some j => Ok (map (fun r => nth j r NA) (mrows m))
  | None => Err {| message := "subscript out of bounds" |}
  end.

(** ** Response matrices *)

(** A response matrix: respondents by items, [ncol] item columns. *)
Record response_matrix : Type := {
  ncol : nat;
  cells : list (list num)
}.

Definition nrow (resp : response_matrix) : nat := length (cells resp).

(** ** The fitted model handle *)

(** An item extracted from a model, read on the fixed ability grid:
    [iteminfo(item, Theta = matrix(theta))] and the correct-response column
    of [probtrace(item, matrix(theta))]. *)
Record item_object : Type := {
  iteminfo : result (list num);
  probtrace : result (list num)
}.

(** What the code reads off a fitted mirt model: [model@OptimInfo$converged],
    [coef(model, simplify = TRUE, IRTpars = TRUE)$items],
    [coef(model, SE = TRUE, IRTpars = TRUE, printSE = TRUE)] (a named list
    whose elements are matrices or [NULL]), [extract.item(model, i)],
    [testinfo(model, Theta = matrix(theta))] and [as.numeric(logLik(model))]. *)
Record FittedModel : Type := {
  converged : bool;
  coef_items : named_matrix;
  coef_printSE : result (list (string * option named_matrix));
  extract_item : num -> result item_object;
  testinfo : result (list num);
  logLik : result num
}.

(** The value [list(model = ..., type = ...)] of a fit. *)
Record fit_result : Type := {
  model : FittedModel;
  type : string
}.

(** ** Collaborators *)

(** An [Env] is the environment of one request, or of one run of the
    script: the code reads the file once in each, and the file is what it
    is at that moment.  A statement about two requests that both read the
    file takes one environment for each. *)
Class Env : Type := {
  (** [mirt(resp, 1, itemtype = ..., ...)] under the fixed seed. *)
  mirt_engine : response_matrix -> string -> result FittedModel;
  (** [as.matrix(read.csv(path))] of a file of numeric columns, as the file
      is when the request reads it. *)
  read_csv : string -> result response_matrix;
  (** [round(x, digits)] of a finite double, itself a finite double. *)
  round_finite : Q -> Z -> Q;
  (** [as.character(x)] of a non-missing double. *)
  as_character : num -> string;
  (** [as.numeric(s)] of a character string. *)
  as_numeric_chr : string -> num;
  (** The sum of doubles none of which is [NA] or [NaN], as [rowSums]
      accumulates and rounds it; it may be infinite, or [NaN] when opposite
      infinities meet. *)
  sum_doubles : list num -> num
}.

(** [round(x, digits)]: [NA], [NaN] and infinite values are left as they
    are. *)
Definition round `{Env} (x : num) (digits : Z) : num :=
  match x with
  | Fin q => Fin (round_finite q digits)
  | _ => x
  end.

(** ** The world and the monad of R computations *)

(** [irt_model_cache] is the global environment of fitted models,
    [engine_calls] records every call of the estimation engine, and
    [res_status] is the status of the response object being served. *)
Record world : Type := {
  irt_model_cache : gmap string fit_result;
  engine_calls : list (response_matrix * string);
  res_status : Z
}.

(** The world with further engine calls recorded. *)
Definition record_calls (calls : list (response_matrix * string)) (w : world)
  : world :=
  {| irt_model_cache := irt_model_cache w;
     engine_calls := engine_calls w ++ calls;
     res_status := res_status w |}.

(** The world with another response status. *)
Definition with_status (code : Z) (w : world) : world :=
  {| irt_model_cache := irt_model_cache w;
     engine_calls := engine_calls w;
     res_status := code |}.

Definition R (A : Type) : Type := world -> result A * world.

Definition ret {A} (a : A) : R A := fun w => (Ok a, w).

Definition bind {A B} (m : R A) (k : A -> R B) : R B :=
  fun w =>
    match m w with
    | (Ok a, w') => k a w'
    | (Err e, w') => (Err e, w')
    end.

Declare Scope R_scope.
Delimit Scope R_scope with R.
Notation "x <- m ;; k" := (bind m (fun x => k))
  (at level 100, m at next level, right associativity) : R_scope.
Notation "m ;;; k" := (bind m (fun _ => k))
  (at level 100, right associativity) : R_scope.
Open Scope R_scope.

(** [stop(msg)]. *)
Definition stop {A} (msg : string) : R A :=
  fun w => (Err {| message := msg |}, w).

(** [stop(list(status = s, error = msg))]: the list is not a condition
    object, so its elements are coerced to character and pasted together
    into the message. *)
Definition stop_list {A} (s msg : string) : R A := stop (s +:+ msg).

(** A pure computation that may raise. *)
Definition lift {A} (r : result A) : R A := fun w => (r, w).

(** [tryCatch(expr, error = handler)]. *)
Definition tryCatch {A} (m : R A) (handler : condition -> R A) : R A :=
  fun w =>
    match m w with
    | (Ok a, w') => (Ok a, w')
    | (Err e, w') => handler e w'
    end.

(** [if (c)] on a possibly missing logical. *)
Definition r_if (c : lgl) : R bool :=
  match c with
  | Some b => ret b
  | None => stop "missing value where TRUE/FALSE needed"
  end.

(** [res$status <- code]. *)
Definition set_status (code : Z) : R unit :=
  fun w => (Ok tt, with_status code w).

(** ** Model fitting with fallback *)

Section Fitting.
Context `{Env}.

(** A call of the estimation engine, recorded in the world. *)
Definition mirt (resp : response_matrix) (itemtype : string) : R FittedModel :=
  fun w => (mirt_engine resp itemtype, record_calls [(resp, itemtype)] w).

(** The element-wise test of [fit_irt_model] on one item. *)
Definition extreme_item (a b g : num) : lgl :=
  lgl_or (lgl_or (lgl_or (lgl_or (lgl_or
    (num_gt a (Fin 10)) (num_lt a (Fin (1#100))))
    (num_gt b (Fin 10))) (num_lt b (Fin (-10))))
    (num_gt g (Fin (1#2)))) (num_lt g (Fin 0)).

Fixpoint extreme_items (a b g : list num) : list lgl :=
  match a, b, g with
  | x :: a', y :: b', z :: g' => extreme_item x y z :: extreme_items a' b' g'
  | _, _, _ => []
  end.

(** The check of a 3PL attempt: [Some] is the early [return], [None] falls
    through to the 2PL fit. *)
Definition check_3pl (model_3pl : option FittedModel) : R (option fit_result) :=
  match model_3pl with
  | Some m =>
      if converged m then
        let params_3pl := coef_items m in
        a <- lift (matrix_col params_3pl "a") ;;
        b <- lift (matrix_col params_3pl "b") ;;
        g <- lift (matrix_col params_3pl "g") ;;
        let extreme_params := lgl_any (extreme_items a b g) in
        ok <- r_if (lgl_not extreme_params) ;;
        if ok then ret (Some {| model := m; type := "3PL" |}) else ret None
      else ret None
  | None => ret None
  end.

(** [fit_irt_model] of plumber.R. *)
Definition fit_irt_model (response_matrix : response_matrix) : R fit_result :=
  model_3pl <- tryCatch (m <- mirt response_matrix "3PL" ;; ret (Some m))
                        (fun e => ret None) ;;
  early <- check_3pl model_3pl ;;
  match early with
  | Some r => ret r
  | None =>
      model_2pl <- mirt response_matrix "2PL" ;;
      ret {| model := model_2pl; type := "2PL" |}
  end.

(** ** The cache wrapper *)

(** [exists(key, envir = irt_model_cache)]; the name must be a non-empty
    string. *)
Definition r_exists (key : string) : R bool :=
  if String.eqb key "" then stop "invalid first argument"
  else fun w => (Ok (bool_decide (is_Some (irt_model_cache w !! key))), w).

(** [get(key, envir = irt_model_cache)]. *)
Definition r_get (key : string) : R fit_result :=
  fun w =>
    match irt_model_cache w !! key with
    | Some v => (Ok v, w)
    | None => (Err {| message := "object '" +:+ key +:+ "' not found" |}, w)
    end.

(** [assign(key, value, envir = irt_model_cache)]. *)
Definition r_assign (key : string) (value : fit_result) : R unit :=
  if String.eqb key "" then stop "attempt to use zero-length variable name"
  else fun w => (Ok tt, {| irt_model_cache := <[key := value]> (irt_model_cache w);
                           engine_calls := engine_calls w;
                           res_status := res_status w |}).

Definition get_or_fit_model (data_path : string) (resp_clean : response_matrix)
  : R fit_result :=
  found <- r_exists data_path ;;
  if found then r_get data_path
  else
    fit_result <- fit_irt_model resp_clean ;;
    r_assign data_path fit_result ;;;
    ret fit_result.

End Fitting.

(** ** Pure computations that may raise *)

Definition result_bind {A B} (r : result A) (k : A -> result B) : result B :=
  match r with
  | Ok a => k a
  | Err e => Err e
  end.

Notation "x <~ r ;; k" := (result_bind r (fun x => k))
  (at level 100, r at next level, right associativity) : R_scope.

(** [tryCatch] around a computation without side effects. *)
Definition result_catch {A} (r : result A) (handler : condition -> A) : A :=
  match r with
  | Ok a => a
  | Err e => handler e
  end.

Fixpoint result_all {A} (l : list (result A)) : result (list A) :=
  match l with
  | [] => Ok []
  | r :: l' => x <~ r ;; xs <~ result_all l' ;; Ok (x :: xs)
  end.

(** [1:n]; note that [1:0] is [c(1, 0)]. *)
Definition r_colon_1 (n : nat) : list nat :=
  match n with
  | O => [1; 0]%nat
  | _ => seq 1 n
  end.

(** ** Standard errors *)

(** [item[2, name]]: an unknown column is an error. *)
Definition matrix_elt2 (item : named_matrix) (name : string) : result num :=
  match col_index name (colnames item) with
  | Some j => Ok (nth j (nth 1 (mrows item) []) NA)
  | None => Err {| message := "subscript out of bounds" |}
  end.

(** One pass of the loop of [extract_standard_errors]: the row of
    [se_matrix] for the [i]-th element of the coefficient list. *)
Definition se_matrix_row (model_type : string)
    (params_with_se : list (string * option named_matrix)) (i : nat)
  : result (list num) :=
  match params_with_se !! (i - 1)%nat, i with
  | Some (_, item), S _ =>
      match item with
      | Some item =>
          if bool_decide (2 <= length (mrows item))%nat then
            a <~ matrix_elt2 item "a" ;;
            b <~ matrix_elt2 item "b" ;;
            g <~ (if String.eqb model_type "3PL" && has_name "g" (colnames item)
                  then matrix_elt2 item "g" else Ok NA) ;;
            u <~ (if has_name "u" (colnames item)
                  then matrix_elt2 item "u" else Ok NA) ;;
            Ok (if String.eqb model_type "3PL" then [a; b; g; u] else [a; b; u])
          else
            Ok (if String.eqb model_type "3PL" then [NA; NA; NA; NA] else [NA; NA; NA])
      | None =>
          Ok (if String.eqb model_type "3PL" then [NA; NA; NA; NA] else [NA; NA; NA])
      end
  | _, _ => Err {| message := "subscript out of bounds" |}
  end.

(** [extract_standard_errors], the same in both files; [None] is [NULL]. *)
Definition extract_standard_errors (model : FittedModel) (model_type : string)
  : option named_matrix :=
  result_catch
    (params_with_se <~ coef_printSE model ;;
     let params_with_se :=
       if bool_decide ("GroupPars" ∈ params_with_se.*1)
       then take (length params_with_se - 1) params_with_se
       else params_with_se in
     let n_items := length params_with_se in
     rows <~ result_all (map (se_matrix_row model_type params_with_se)
                             (r_colon_1 n_items)) ;;
     Ok (Some {| colnames := if String.eqb model_type "3PL"
                             then ["a"; "b"; "g"; "u"] else ["a"; "b"; "u"];
                 mrows := rows |}))
    (fun e => None).

(** ** Parameter extraction *)

(** A row of the item-parameter tibble. *)
Record item_row : Type := {
  item_id : string;
  discrimination : num;
  difficulty : num;
  guessing : num;
  se_discrimination : num;
  se_difficulty : num;
  se_guessing : num;
  model_type : string
}.

(** [paste0("item_", i)]. *)
Definition item_name (i : nat) : string := "item_" +:+ pretty i.

Section Extraction.
Context `{Env}.

(** One pass of the loop of [extract_item_params], for the 1-based item
    [i] with coefficient row [row]. *)
Definition extract_item_row (params_table : named_matrix)
    (params_se_table : option named_matrix) (mt : string)
    (i : nat) (row : list num) : item_row :=
  let names := colnames params_table in
  let a := vec_get names row "a" in
  let b := vec_get names row "b" in
  let g := if String.eqb mt "3PL" && has_name "g" names
           then vec_get names row "g" else Fin 0 in
  let se :=
    match params_se_table with
    | Some se_table =>
        if bool_decide (i <= length (mrows se_table))%nat then
          let se_names := colnames se_table in
          let se_row := nth (i - 1) (mrows se_table) [] in
          (if has_name "a" se_names && negb (is_na (vec_get se_names se_row "a"))
           then vec_get se_names se_row "a" else NA,
           if has_name "b" se_names && negb (is_na (vec_get se_names se_row "b"))
           then vec_get se_names se_row "b" else NA,
           if String.eqb mt "3PL" && has_name "g" se_names
              && negb (is_na (vec_get se_names se_row "g"))
           then vec_get se_names se_row "g" else Fin 0)
        else (NA, NA, Fin 0)
    | None => (NA, NA, Fin 0)
    end in
  let se_a := se.1.1 in
  let se_b := se.1.2 in
  let se_g := se.2 in
  {| item_id := item_name i;
     discrimination := if is_na a then Fin 1 else round a 4;
     difficulty := if is_na b then Fin 0 else round b 4;
     guessing := round g 4;
     se_discrimination := if is_na se_a then Fin 0 else round se_a 4;
     se_difficulty := if is_na se_b then Fin 0 else round se_b 4;
     se_guessing := round se_g 4;
     model_type := mt |}.

(** [extract_item_params], the same in both files. *)
Definition extract_item_params (params_table : named_matrix)
    (params_se_table : option named_matrix) (model_type : string)
  : list item_row :=
  imap (fun k row =>
          extract_item_row params_table params_se_table model_type (S k) row)
       (mrows params_table).

End Extraction.

(** ** Parameter cleaning *)

Definition set_discrimination (v : num) (r : item_row) : item_row :=
  {| item_id := item_id r; discrimination := v; difficulty := difficulty r;
     guessing := guessing r; se_discrimination := se_discrimination r;
     se_difficulty := se_difficulty r; se_guessing := se_guessing r;
     model_type := model_type r |}.

Definition set_difficulty (v : num) (r : item_row) : item_row :=
  {| item_id := item_id r; discrimination := discrimination r; difficulty := v;
     guessing := guessing r; se_discrimination := se_discrimination r;
     se_difficulty := se_difficulty r; se_guessing := se_guessing r;
     model_type := model_type r |}.

Definition set_guessing (v : num) (r : item_row) : item_row :=
  {| item_id := item_id r; discrimination := discrimination r;
     difficulty := difficulty r; guessing := v;
     se_discrimination := se_discrimination r;
     se_difficulty := se_difficulty r; se_guessing := se_guessing r;
     model_type := model_type r |}.

(** The guard [!is.na(x) && x < bound]. *)
Definition below (x bound : num) : bool :=
  negb (is_na x) && isTRUE (num_lt x bound).

(** The guard [!is.na(x) && x > bound]. *)
Definition above (x bound : num) : bool :=
  negb (is_na x) && isTRUE (num_gt x bound).

(** The successive [if] statements of the loop body, each reading the
    value left by the previous one. *)
Definition fix_negative_discrimination (r : item_row) : item_row :=
  if below (discrimination r) (Fin 0)
  then set_discrimination (num_abs (discrimination r)) r else r.

Definition cap_discrimination (r : item_row) : item_row :=
  if above (discrimination r) (Fin 4) then set_discrimination (Fin 4) r else r.

Definition floor_discrimination (r : item_row) : item_row :=
  if below (discrimination r) (Fin (1#10))
  then set_discrimination (Fin (1#10)) r else r.

Definition floor_difficulty (r : item_row) : item_row :=
  if below (difficulty r) (Fin (-4)) then set_difficulty (Fin (-4)) r else r.

Definition cap_difficulty (r : item_row) : item_row :=
  if above (difficulty r) (Fin 4) then set_difficulty (Fin 4) r else r.

Definition floor_guessing (r : item_row) : item_row :=
  if below (guessing r) (Fin 0) then set_guessing (Fin 0) r else r.

Definition cap_guessing (r : item_row) : item_row :=
  if above (guessing r) (Fin (1#2)) then set_guessing (Fin (1#2)) r else r.

(** The loop body of [clean_parameters] on the row it is at. *)
Definition clean_item (model_type : string) (r : item_row) : item_row :=
  let r := fix_negative_discrimination r in
  let r := cap_discrimination r in
  let r := floor_discrimination r in
  let r := floor_difficulty r in
  let r := cap_difficulty r in
  if String.eqb model_type "3PL" then cap_guessing (floor_guessing r) else r.

(** [clean_parameters], the same in both files: the loop over
    [seq_len(nrow(item_params))] updates the table in place, row by row. *)
Definition clean_parameters (item_params : list item_row) (model_type : string)
  : list item_row :=
  foldl (fun tbl i => alter (clean_item model_type) i tbl)
        item_params (seq 0 (length item_params)).

(** ** Data validation and cleaning *)

(** [x %in% c(0, 1, NA)]: [NaN] matches none of the three. *)
Definition in_binary (x : num) : bool :=
  match x with
  | NA => true
  | Fin q => Qeq_bool q 0 || Qeq_bool q 1
  | NaN | NInf | PInf => false
  end.

(** Identity of two values as [unique] sees it: [NA] and [NaN] are two
    values. *)
Definition num_same (x y : num) : bool :=
  match x, y with
  | NA, NA | NaN, NaN | NInf, NInf | PInf, PInf => true
  | Fin p, Fin q => Qeq_bool p q
  | _, _ => false
  end.

(** [unique(v)]: first occurrences, in order. *)
Fixpoint unique (v : list num) : list num :=
  match v with
  | [] => []
  | x :: v' => x :: List.filter (fun y => negb (num_same x y)) (unique v')
  end.

(** [as.vector(resp)].  R flattens by columns; the cells are listed here by
    rows, the result being used only through [unique], [%in%] and [sort]. *)
Definition as_vector (resp : response_matrix) : list num := concat (cells resp).

Fixpoint sort_insert (x : num) (v : list num) : list num :=
  match v with
  | [] => [x]
  | y :: v' => if isTRUE (num_lt y x) then y :: sort_insert x v' else x :: y :: v'
  end.

(** [sort(v)]: [NA] and [NaN] are removed, the rest is increasing. *)
Fixpoint sort (v : list num) : list num :=
  match v with
  | [] => []
  | x :: v' => if is_na x then sort v' else sort_insert x (sort v')
  end.

(** [paste(v, collapse = sep)]. *)
Fixpoint paste_collapse (sep : string) (v : list string) : string :=
  match v with
  | [] => ""
  | [x] => x
  | x :: v' => x +:+ sep +:+ paste_collapse sep v'
  end.

(** The sum, in exact arithmetic, of the cells of a row that are neither
    [NA] nor [NaN]. *)
Definition exact_sum (row : list num) : num :=
  foldl num_add (Fin 0) (List.filter (fun x => negb (is_na x)) row).

(** A cell equal to 0 or to 1. *)
Definition zero_or_one (x : num) : bool :=
  match x with
  | Fin q => Qeq_bool q 0 || Qeq_bool q 1
  | _ => false
  end.

(** One entry of [rowSums(resp, na.rm = TRUE)]: the sum of the cells that
    are neither [NA] nor [NaN].  R adds them as doubles.  When they are all
    0 or 1 the sum is a count, which doubles hold exactly; any other sum is
    rounded by the platform and is the one the environment gives. *)
Definition row_sum `{Env} (row : list num) : num :=
  let present := List.filter (fun x => negb (is_na x)) row in
  if forallb zero_or_one present then exact_sum row else sum_doubles present.

Definition rowSums `{Env} (resp : response_matrix) : list num :=
  map row_sum (cells resp).

(** [row_sums > 0 & row_sums < ncol(resp)]. *)
Definition valid_row (nc : nat) (s : num) : lgl :=
  lgl_and (num_gt s (Fin 0)) (num_lt s (num_of_nat nc)).

(** [resp[valid_rows, , drop = FALSE]]: a missing index yields a row of
    missing values. *)
Fixpoint subset_rows (nc : nat) (rows : list (list num)) (idx : list lgl)
  : list (list num) :=
  match rows, idx with
  | r :: rows', Some true :: idx' => r :: subset_rows nc rows' idx'
  | _ :: rows', Some false :: idx' => subset_rows nc rows' idx'
  | _ :: rows', None :: idx' => replicate nc NA :: subset_rows nc rows' idx'
  | _, _ => []
  end.

(** [n < 10] on a possibly missing count. *)
Definition count_below_10 (n : option nat) : lgl :=
  (fun k => bool_decide (k < 10)%nat) <$> n.

(** The value [list(resp_clean = ..., original_resp = ...)]. *)
Record data_list : Type := {
  resp_clean : response_matrix;
  original_resp : response_matrix
}.

Section Validation.
Context `{Env}.

(** The message of the schema error. *)
Definition found_message (unique_vals : list num) : string :=
  "Responses must be 0/1. Found: "
  +:+ paste_collapse ", " (map as_character (sort unique_vals)).

(** [validate_and_clean_data] of plumber.R; [None] is a [NULL] path. *)
Definition validate_and_clean_data (data_path : option string) : R data_list :=
  match data_path with
  | None =>
      set_status 400 ;;;
      stop_list "error" "data_path required"
  | Some path =>
      resp <- lift (read_csv path) ;;
      let unique_vals := unique (as_vector resp) in
      if negb (forallb in_binary unique_vals) then
        set_status 400 ;;;
        stop_list "error" (found_message unique_vals)
      else
        let row_sums := rowSums resp in
        let valid_rows := map (valid_row (ncol resp)) row_sums in
        few <- r_if (count_below_10 (lgl_sum valid_rows)) ;;
        if few then
          set_status 400 ;;;
          stop_list "error" "Not enough valid response patterns after filtering"
        else
          ret {| resp_clean := {| ncol := ncol resp;
                                  cells := subset_rows (ncol resp) (cells resp)
                                                       valid_rows |};
                 original_resp := resp |}
  end.

End Validation.

(** ** The ability grid and the curves *)

(** [seq(-4, 4, length.out = 101)]. *)
Definition theta : list num :=
  map (fun k => Fin (-4 + inject_Z (Z.of_nat k) * (8 # 100))) (seq 0 101).

(** A row of a long-format curve table: columns [theta], the value
    ([iif] or [probability]) and [item_id]. *)
Record curve_row : Type := {
  row_theta : num;
  row_value : num;
  row_item_id : string
}.

(** [data.frame(theta = th, value = v, item_id = id)] with a single
    [id]: the columns are recycled to the longest one, whose length each
    must divide; an empty column cannot be recycled. *)
Definition data_frame (th v : list num) (id : string) : result (list curve_row) :=
  let n := max (length th) (length v) in
  if bool_decide (length th = 0 \/ length v = 0)%nat then
    Err {| message := "arguments imply differing number of rows" |}
  else if bool_decide (n `mod` length th = 0 /\ n `mod` length v = 0)%nat then
    Ok (map (fun k => {| row_theta := nth (k `mod` length th) th NA;
                         row_value := nth (k `mod` length v) v NA;
                         row_item_id := id |}) (seq 0 n))
  else Err {| message := "arguments imply differing number of rows" |}.

Section Curves.
Context `{Env}.

Definition round_all (v : list num) (digits : Z) : list num :=
  map (fun x => round x digits) v.

(** The function applied to each item by the /iif handler. *)
Definition iif_item (model : FittedModel) (i : nat) : list curve_row :=
  result_catch
    (item_obj <~ extract_item model (num_of_nat i) ;;
     item_info <~ iteminfo item_obj ;;
     data_frame (round_all theta 6) (round_all item_info 8) (item_name i))
    (fun e =>
       (* data.frame(theta = round(theta, 6), iif = rep(NA, length(theta)),
          item_id = ...): two columns of the same length *)
       map (fun t => {| row_theta := t; row_value := NA;
                        row_item_id := item_name i |})
           (round_all theta 6)).

(** The function applied to each item by the /icc handler. *)
Definition icc_item (model : FittedModel) (i : nat) : result (list curve_row) :=
  item_obj <~ extract_item model (num_of_nat i) ;;
  probs <~ probtrace item_obj ;;
  data_frame (round_all theta 6) (round_all probs 8) (item_name i).

End Curves.

(** ** The service endpoints (plumber.R) *)

(** The success payloads of the four endpoints.  Of the /analyze payload
    the fields read off the engine under [tryCatch] (the [model_fit] block,
    [response_rate], [iterations]) are left out: they take no part in the
    control flow. *)
Inductive payload : Type :=
  | AnalysisResult (analysis_type : string) (model_converged : bool)
      (log_likelihood : num) (n_students n_items original_students : nat)
      (item_parameters : list item_row)
      (test_theta test_information : list num)
  | IccItem (icc_theta probability : list num) (icc_item_id : string)
  | IccAll (icc_data : list curve_row)
  | IifAll (iif_data : list curve_row)
  | TestInformation (tif_theta information : list num).

(** The value of an endpoint: [list(status = "success", ...)] or
    [list(status = "error", error = ...)]. *)
Inductive response : Type :=
  | Success (p : payload)
  | Failure (error : string).

(** The name under which a request's [data_path] reaches the cache; for
    [NULL] as for the empty string, [exists] fails with the same error. *)
Definition path_name (data_path : option string) : string :=
  default "" data_path.

(** [gsub("item_", "", s)]. *)
Fixpoint gsub_item (s : string) : string :=
  match s with
  | String "i"%char (String "t"%char (String "e"%char
      (String "m"%char (String "_"%char rest)))) =>
      gsub_item rest
  | String c rest => String c (gsub_item rest)
  | EmptyString => EmptyString
  end.

(** The all-zero standard errors used when none could be extracted. *)
Definition zero_se (params : named_matrix) (model_type : string) : named_matrix :=
  if String.eqb model_type "3PL"
  then {| colnames := ["a"; "b"; "g"; "u"];
          mrows := replicate (length (mrows params)) (replicate 4 (Fin 0)) |}
  else {| colnames := ["a"; "b"; "u"];
          mrows := replicate (length (mrows params)) (replicate 3 (Fin 0)) |}.

Section Service.
Context `{Env}.

(** The common opening of the four handlers: validate, then fetch or fit. *)
Definition load_model (data_path : option string) : R (data_list * fit_result) :=
  data_list <- validate_and_clean_data data_path ;;
  fit_result <- get_or_fit_model (path_name data_path) (resp_clean data_list) ;;
  ret (data_list, fit_result).

(** The item parameters of a fitted model, extracted and cleaned. *)
Definition item_parameters_of (model : FittedModel) (model_type : string)
  : list item_row :=
  let params := coef_items model in
  let params_se :=
    match extract_standard_errors model model_type with
    | Some se => se
    | None => zero_se params model_type
    end in
  clean_parameters (extract_item_params params (Some params_se) model_type)
                   model_type.

(** The test information of a model on the grid, missing on failure. *)
Definition test_information_of (model : FittedModel) : list num :=
  result_catch (testinfo model) (fun e => replicate (length theta) NA).

(** POST /analyze.  The handler of its [tryCatch] reads [e$message$error]
    on a character message and so raises itself. *)
Definition analyze (data_path : option string) : R response :=
  tryCatch
    (loaded <- load_model data_path ;;
     let '(data_list, fit_result) := loaded in
     let model := model fit_result in
     let model_type := type fit_result in
     let item_params := item_parameters_of model model_type in
     let test_info := round_all (test_information_of model) 8 in
     ll <- lift (logLik model) ;;
     ret (Success (AnalysisResult model_type (converged model) ll
                     (nrow (resp_clean data_list)) (ncol (resp_clean data_list))
                     (nrow (original_resp data_list))
                     item_params (round_all theta 6) test_info)))
    (fun e =>
       set_status 500 ;;;
       stop "$ operator is invalid for atomic vectors").

(** POST /icc, for one item or for all. *)
Definition icc (data_path : option string) (item_id : option string) : R response :=
  tryCatch
    (loaded <- load_model data_path ;;
     let '(data_list, fit_result) := loaded in
     let model := model fit_result in
     match item_id with
     | Some item_id =>
         let idx := as_numeric_chr (gsub_item item_id) in
         probs <- lift (item_obj <~ extract_item model idx ;; probtrace item_obj) ;;
         ret (Success (IccItem (round_all theta 6) (round_all probs 8) item_id))
     | None =>
         full <- lift (result_all (map (icc_item model)
                                       (r_colon_1 (ncol (resp_clean data_list))))) ;;
         ret (Success (IccAll (concat full)))
     end)
    (fun e =>
       set_status 500 ;;;
       ret (Failure (message e))).

(** POST /iif. *)
Definition iif (data_path : option string) : R response :=
  tryCatch
    (loaded <- load_model data_path ;;
     let '(data_list, fit_result) := loaded in
     let model := model fit_result in
     let full_iif :=
       concat (map (iif_item model) (r_colon_1 (ncol (resp_clean data_list)))) in
     ret (Success (IifAll full_iif)))
    (fun e =>
       set_status 500 ;;;
       ret (Failure ("IIF calculation failed: " +:+ message e))).

(** POST /testinfo. *)
Definition testinfo_endpoint (data_path : option string) : R response :=
  tryCatch
    (loaded <- load_model data_path ;;
     let '(data_list, fit_result) := loaded in
     let model := model fit_result in
     let info := test_information_of model in
     ret (Success (TestInformation (round_all theta 6) (round_all info 8))))
    (fun e =>
       set_status 500 ;;;
       ret (Failure (message e))).

End Service.

(** ** The standalone script (irt_analysis.R) *)

(** A curve stored in a named list: [list(theta = ..., p = ...)] or
    [list(theta = ..., info = ...)]. *)
Record curve : Type := {
  curve_theta : list num;
  curve_values : list num
}.

(** [l[[name]] <- value] on a named list: replace the element of that name
    or append a new one. *)
Fixpoint named_list_set {A} (l : list (string * A)) (name : string) (value : A)
  : list (string * A) :=
  match l with
  | [] => [(name, value)]
  | (n, v) :: l' =>
      if String.eqb n name then (n, value) :: l'
      else (n, v) :: named_list_set l' name value
  end.

(** [l[[name]]]; [None] is [NULL]. *)
Fixpoint named_list_get {A} (l : list (string * A)) (name : string) : option A :=
  match l with
  | [] => None
  | (n, v) :: l' => if String.eqb n name then Some v else named_list_get l' name
  end.

(** The [results] list of [perform_irt_analysis], without its [model_fit]
    block. *)
Record results : Type := {
  res_model_type : string;
  res_items : nat;
  res_respondents : nat;
  res_parameters : list item_row;
  res_icc : list (string * curve);
  res_iif : list (string * curve);
  res_test_theta : list num;
  res_test_information : list num
}.

Module Standalone.
Section Standalone.
Context `{Env}.

(** [fit_irt_model_standalone] repeats [fit_irt_model] line for line. *)
Definition fit_irt_model_standalone (response_matrix : response_matrix)
  : R fit_result :=
  fit_irt_model response_matrix.

(** One pass of the ICC loop. *)
Definition icc_step (model : FittedModel) (icc_list : list (string * curve))
    (i : nat) : result (list (string * curve)) :=
  item_obj <~ extract_item model (num_of_nat i) ;;
  probs <~ probtrace item_obj ;;
  Ok (named_list_set icc_list (item_name i)
        {| curve_theta := round_all theta 6; curve_values := round_all probs 8 |}).

(** One pass of the IIF loop.  The body of the [tryCatch] is evaluated in
    the frame of [perform_irt_analysis] and assigns to its [iif_list]; the
    error handler is a function, so its assignment to [iif_list] creates a
    variable local to the call of the handler and the list of the loop is
    left as it was. *)
Definition iif_step (model : FittedModel) (iif_list : list (string * curve))
    (i : nat) : list (string * curve) :=
  match (item_obj <~ extract_item model (num_of_nat i) ;; iteminfo item_obj) with
  | Ok item_info =>
      named_list_set iif_list (item_name i)
        {| curve_theta := round_all theta 6;
           curve_values := round_all item_info 8 |}
  | Err e =>
      let handler_local_iif_list :=
        named_list_set iif_list (item_name i)
          {| curve_theta := round_all theta 6;
             curve_values := replicate (length theta) NA |} in
      iif_list
  end.

Fixpoint icc_loop (model : FittedModel) (icc_list : list (string * curve))
    (items : list nat) : result (list (string * curve)) :=
  match items with
  | [] => Ok icc_list
  | i :: items' =>
      icc_list' <~ icc_step model icc_list i ;;
      icc_loop model icc_list' items'
  end.

(** [perform_irt_analysis(input_file, output_file)] on a file of numeric
    columns, up to the writing of the JSON file: [results] is the list the
    script is about to write.  The fitted model is one on which [coef]
    returns, as the fields of [FittedModel] have it. *)
Definition perform_irt_analysis (input_file : string) : R results :=
  responses <- lift (read_csv input_file) ;;
  let row_sums := rowSums responses in
  let valid_rows := map (valid_row (ncol responses)) row_sums in
  let responses_clean :=
    {| ncol := ncol responses;
       cells := subset_rows (ncol responses) (cells responses) valid_rows |} in
  if bool_decide (nrow responses_clean < 10)%nat then
    stop "Not enough valid response patterns after filtering (less than 10)."
  else
    fit_result <- fit_irt_model_standalone responses_clean ;;
    let model := model fit_result in
    let model_type := type fit_result in
    let item_params_df := item_parameters_of model model_type in
    icc_list <- lift (icc_loop model [] (seq 1 (ncol responses_clean))) ;;
    let iif_list := foldl (iif_step model) [] (seq 1 (ncol responses_clean)) in
    let test_info := test_information_of model in
    ret {| res_model_type := model_type;
           res_items := ncol responses_clean;
           res_respondents := nrow responses_clean;
           res_parameters := item_params_df;
           res_icc := icc_list;
           res_iif := iif_list;
           res_test_theta := round_all theta 6;
           res_test_information := round_all test_info 8 |}.

End Standalone.
End Standalone.

(** ** The bounds, as the code tests them and as the specification words them *)

(** An item the check of [fit_irt_model] lets through. *)
Definition plausible (a b g : num) : Prop :=
  exists qa qb qg, a = Fin qa /\ b = Fin qb /\ g = Fin qg /\
    (1#100) <= qa /\ qa <= 10 /\ -10 <= qb /\ qb <= 10 /\ 0 <= qg /\ qg <= (1#2).

(** The same with the lower bound of the discrimination excluded, as in
    "discrimination in (0.01, 10]". *)
Definition plausible_as_stated (a b g : num) : Prop :=
  exists qa qb qg, a = Fin qa /\ b = Fin qb /\ g = Fin qg /\
    (1#100) < qa /\ qa <= 10 /\ -10 <= qb /\ qb <= 10 /\ 0 <= qg /\ qg <= (1#2).

(** A coefficient table with the three columns, all of whose items satisfy
    [ok]. *)
Definition items_satisfy (ok : num -> num -> num -> Prop) (m : FittedModel) : Prop :=
  let names := colnames (coef_items m) in
  has_name "a" names = true /\ has_name "b" names = true /\
  has_name "g" names = true /\
  Forall (fun row => ok (vec_get names row "a") (vec_get names row "b")
                        (vec_get names row "g"))
         (mrows (coef_items m)).

(** No coefficient of the three columns is missing. *)
Definition present (a b g : num) : Prop :=
  is_na a = false /\ is_na b = false /\ is_na g = false.

(** The three discrimination steps of the cleaning pass in their fixed
    order: absolute value of a negative value, then clamp above 4.0, then
    clamp below 0.1. *)
Definition clean_discrimination (a : num) : num :=
  let a := if below a (Fin 0) then num_abs a else a in
  let a := if above a (Fin 4) then Fin 4 else a in
  if below a (Fin (1#10)) then Fin (1#10) else a.

(** The two difficulty steps: clamp below -4.0, then clamp above 4.0. *)
Definition clean_difficulty (b : num) : num :=
  let b := if below b (Fin (-4)) then Fin (-4) else b in
  if above b (Fin 4) then Fin 4 else b.

(** The rows kept by validation, in the words of the specification: the row
    sum is strictly between 0 and the item count. *)
Definition strictly_between (nc : nat) (row : list num) : bool :=
  match exact_sum row with
  | Fin s => Qltb 0 s && Qltb s (inject_Z (Z.of_nat nc))
  | _ => false
  end.

(** A correct response, an incorrect response. *)
Definition is_correct (x : num) : bool := num_same x (Fin 1).
Definition is_incorrect (x : num) : bool := num_same x (Fin 0).

(** A row without missing cells, all of them 0 or 1. *)
Definition complete_binary (row : list num) : bool :=
  forallb (fun x => is_correct x || is_incorrect x) row.

(** The curve of missing values of an item on the grid. *)
Definition missing_curve `{Env} (i : nat) : list curve_row :=
  map (fun t => {| row_theta := t; row_value := NA; row_item_id := item_name i |})
      (round_all theta 6).


(** The world after a sequence of [get_or_fit_model] calls. *)
Fixpoint after_calls `{Env} (calls : list (string * response_matrix)) (w : world)
  : world :=
  match calls with
  | [] => w
  | (key, resp) :: calls' => after_calls calls' (get_or_fit_model key resp w).2
  end.

(** The fallback of [fit_irt_model] is reached: the 3PL call raised, or its
    model did not converge, or one of its items is extreme. *)
Definition falls_back `{Env} (resp : response_matrix) : Prop :=
  match mirt_engine resp "3PL" with
  | Err _ => True
  | Ok m =>
      converged m = false \/
      exists a b g,
        matrix_col (coef_items m) "a" = Ok a /\
        matrix_col (coef_items m) "b" = Ok b /\
        matrix_col (coef_items m) "g" = Ok g /\
        lgl_any (extreme_items a b g) = Some true
  end.

(** The outcome of the 2PL fit: whatever the engine answers. *)
Definition simple_outcome `{Env} (resp : response_matrix) : result fit_result :=
  model_2pl <~ mirt_engine resp "2PL" ;;
  Ok {| model := model_2pl; type := "2PL" |}.

(** The verdict of the check on the coefficient table of a model: the value
    of [extreme_params]. *)
Definition verdict (m : FittedModel) : lgl :=
  let names := colnames (coef_items m) in
  lgl_any (map (fun row => extreme_item (vec_get names row "a")
                             (vec_get names row "b") (vec_get names row "g"))
               (mrows (coef_items m))).

(** The 3PL attempt is accepted: the call returned a converged model all of
    whose items are within the bounds. *)
Definition rich_accepted `{Env} (resp : response_matrix) (m : FittedModel) : Prop :=
  mirt_engine resp "3PL" = Ok m /\ converged m = true /\
  items_satisfy plausible m.

(** No coefficient that the check compares is missing. *)
Definition coefficients_present `{Env} (resp : response_matrix) : Prop :=
  forall m, mirt_engine resp "3PL" = Ok m -> converged m = true ->
            items_satisfy present m.

(** ** Further notions used in the properties *)

(** The two guessing steps of the cleaning pass: clamp below 0, then clamp
    above 0.5. *)
Definition clean_guessing (g : num) : num :=
  let g := if below g (Fin 0) then Fin 0 else g in
  if above g (Fin (1#2)) then Fin (1#2) else g.

(** A value that is missing ([NA] or [NaN]) or lies in the closed
    interval. *)
Definition missing_or_within (lo hi : Q) (x : num) : Prop :=
  is_na x = true \/ exists q, x = Fin q /\ lo <= q /\ q <= hi.

(** A row that the cleaning pass has nothing to do on. *)
Definition row_within_bounds (mt : string) (r : item_row) : Prop :=
  missing_or_within (1#10) 4 (discrimination r) /\
  missing_or_within (-4) 4 (difficulty r) /\
  (mt = "3PL" -> missing_or_within 0 (1#2) (guessing r)).

(** The elements of the coefficient list that the loop visits: the list
    without its last element when one of the names is GroupPars. *)
Definition visited_items (l : list (string * option named_matrix))
  : list (string * option named_matrix) :=
  if bool_decide ("GroupPars" ∈ l.*1) then take (length l - 1) l else l.

(** An element on which the loop raises: a matrix of at least two rows
    without a column a or without a column b. *)
Definition unreadable_item (item : option named_matrix) : bool :=
  match item with
  | Some m => bool_decide (2 <= length (mrows m))%nat
              && negb (has_name "a" (colnames m) && has_name "b" (colnames m))
  | None => false
  end.

(** The number of columns of the matrix of standard errors. *)
Definition se_width (mt : string) : nat := if String.eqb mt "3PL" then 4 else 3.

(** A decimal digit; a string of decimal digits. *)
Definition is_digit (c : ascii) : bool :=
  existsb (Ascii.eqb c)
    ["0"; "1"; "2"; "3"; "4"; "5"; "6"; "7"; "8"; "9"]%char.

Fixpoint only_digits (s : string) : bool :=
  match s with
  | EmptyString => true
  | String c rest => is_digit c && only_digits rest
  end.

(** The rows of a long table that carry the id of item [i]. *)
Definition rows_of_item (i : nat) (d : list curve_row) : list curve_row :=
  List.filter (fun r => String.eqb (row_item_id r) (item_name i)) d.

(** The four handlers of the service on one request. *)
Definition handlers `{Env} (data_path item_id : option string) : list (R response) :=
  [analyze data_path; icc data_path item_id; iif data_path;
   testinfo_endpoint data_path].

(** The handler [later], run in [w2], answers as the handler [first] did
    in [w], without calling the engine and without changing the cache. *)
Definition served_again (w w2 : world) (first later : R response) : Prop :=
  (later w2).1 = (first w).1 /\
  engine_calls (later w2).2 = engine_calls w2 /\
  irt_model_cache (later w2).2 = irt_model_cache w2.


Section StandaloneCurves.
Context `{Env}.



End StandaloneCurves.

(** ** Concrete collaborators for the examples *)

(** A rounding to [digits] decimals, halves upwards. *)
Definition round_half_up (q : Q) (digits : Z) : Q :=
  let scale := inject_Z (10 ^ digits) in
  Qred (inject_Z (Qfloor (q * scale + (1#2))) / scale).

(** A rendering of doubles: integers in decimal, other finite values as a
    fraction. *)
Definition show_num (x : num) : string :=
  match x with
  | NA => "NA"
  | NaN => "NaN"
  | NInf => "-Inf"
  | PInf => "Inf"
  | Fin q =>
      let q := Qred q in
      if Pos.eqb (Qden q) 1 then pretty (Qnum q)
      else pretty (Qnum q) +:+ "/" +:+ pretty (Zpos (Qden q))
  end.

(** A reading of unsigned decimal integers; anything else is missing. *)
Fixpoint read_digits (s : string) (acc : Z) : option Z :=
  match s with
  | EmptyString => Some acc
  | String c rest =>
      let d := (Z.of_nat (nat_of_ascii c) - 48)%Z in
      if bool_decide (0 <= d <= 9)%Z then read_digits rest (10 * acc + d)%Z
      else None
  end.

Definition read_num (s : string) : num :=
  match s with
  | EmptyString => NA
  | _ => match read_digits s 0 with Some z => Fin (inject_Z z) | None => NA end
  end.

(** An item with flat curves. *)
Definition flat_item : item_object :=
  {| iteminfo := Ok (replicate 101 (Fin (1#4)));
     probtrace := Ok (replicate 101 (Fin (1#2))) |}.

(** A model with the coefficient rows [rows] (columns a, b, g, u), without
    standard errors, all of whose items can be read except the one numbered
    [broken], whose information function raises. *)
Definition sample_model (conv : bool) (rows : list (list num)) (broken : nat)
  : FittedModel :=
  {| converged := conv;
     coef_items := {| colnames := ["a"; "b"; "g"; "u"]; mrows := rows |};
     coef_printSE := Err {| message := "no standard errors" |};
     extract_item := fun i =>
       if isTRUE (num_eq i (num_of_nat broken))
       then Ok {| iteminfo := Err {| message := "iteminfo failed" |};
                  probtrace := probtrace flat_item |}
       else Ok flat_item;
     testinfo := Ok (replicate 101 (Fin 1));
     logLik := Ok (Fin (-100)) |}.

(** An environment whose engine answers [rich] to 3PL requests and [simple]
    to all others, and whose only file is [data.csv] with content [table].
    Its sums of doubles are the exact ones: the tables of the examples hold
    small integers only, whose sums doubles hold exactly. *)
Definition sample_env (rich simple : result FittedModel) (table : response_matrix)
  : Env :=
  {| mirt_engine := fun _ itemtype =>
       if String.eqb itemtype "3PL" then rich else simple;
     read_csv := fun path =>
       if String.eqb path "data.csv" then Ok table
       else Err {| message := "cannot open file" |};
     round_finite := round_half_up;
     as_character := show_num;
     as_numeric_chr := read_num;
     sum_doubles := foldl num_add (Fin 0) |}.

(** The world of a fresh process serving a request. *)
Definition fresh : world :=
  {| irt_model_cache := ∅; engine_calls := []; res_status := 200 |}.

(** Ten respondents, three items, each row with two correct responses and a
    missing cell. *)
Definition table_with_missing : response_matrix :=
  {| ncol := 3; cells := replicate 10 [Fin 1; Fin 1; NA] |}.


(** Ten respondents, three items, mixed responses. *)
Definition table_mixed : response_matrix :=
  {| ncol := 3; cells := replicate 5 [Fin 1; Fin 0; Fin 0]
                         ++ replicate 5 [Fin 0; Fin 1; Fin 1] |}.

(** Nine and ten valid rows among all-correct and all-wrong ones. *)
Definition table_nine : response_matrix :=
  {| ncol := 2; cells := [Fin 1; Fin 1] :: [Fin 0; Fin 0]
                         :: replicate 9 [Fin 1; Fin 0] |}.

Definition table_ten : response_matrix :=
  {| ncol := 2; cells := [Fin 1; Fin 1] :: [Fin 0; Fin 0]
                         :: replicate 10 [Fin 1; Fin 0] |}.

(** Three plausible items; in [rows_at_bound] the first discrimination is
    exactly 0.01, in [rows_guessing] the second guessing is 0.7. *)
Definition rows_plain : list (list num) :=
  [[Fin 1; Fin 0; Fin (1#5); Fin 1];
   [Fin 2; Fin (-1); Fin (1#10); Fin 1];
   [Fin (1#2); Fin 1; Fin 0; Fin 1]].

Definition rows_at_bound : list (list num) :=
  [[Fin (1#100); Fin 0; Fin 0; Fin 1]].

Definition rows_guessing : list (list num) :=
  [[Fin 1; Fin 0; Fin (1#5); Fin 1];
   [Fin 2; Fin (-1); Fin (7#10); Fin 1]].

(** The environments of the examples. *)
Definition env_at_bound : Env :=
  sample_env (Ok (sample_model true rows_at_bound 0))
             (Ok (sample_model false rows_plain 0)) table_mixed.

Definition env_guessing : Env :=
  sample_env (Ok (sample_model true rows_guessing 0))
             (Ok (sample_model false rows_plain 0)) table_mixed.

Definition env_broken_item : Env :=
  sample_env (Ok (sample_model true rows_plain 3))
             (Ok (sample_model false rows_plain 0)) table_mixed.

Definition env_failing : Env :=
  sample_env (Err {| message := "3PL failed" |})
             (Err {| message := "2PL failed" |}) table_mixed.

Definition env_missing : Env :=
  sample_env (Ok (sample_model true rows_plain 0))
             (Ok (sample_model false rows_plain 0)) table_with_missing.


Definition env_ten : Env :=
  sample_env (Ok (sample_model true rows_plain 0))
             (Ok (sample_model false rows_plain 0)) table_ten.

(** Ten respondents, three items, a [NaN] in the third column. *)
Definition table_with_nan : response_matrix :=
  {| ncol := 3; cells := replicate 10 [Fin 1; Fin 0; NaN] |}.

Definition env_nan : Env :=
  sample_env (Ok (sample_model true rows_plain 0))
             (Ok (sample_model false rows_plain 0)) table_with_nan.

(** The entry and the world left by a first fit of [data.csv] under
    [env_broken_item]. *)
Definition first_entry : fit_result :=
  {| model := sample_model true rows_plain 3; type := "3PL" |}.

Definition after_first_fit : world :=
  {| irt_model_cache := <["data.csv" := first_entry]> ∅;
     engine_calls := [(table_mixed, "3PL")];
     res_status := 200 |}.

(** A parameter row with the discrimination [a], otherwise unremarkable. *)
Definition row_with_discrimination (a : num) : item_row :=
  {| item_id := "item_1"; discrimination := a; difficulty := Fin 0;
     guessing := Fin 0; se_discrimination := Fin 0; se_difficulty := Fin 0;
     se_guessing := Fin 0; model_type := "2PL" |}.

(** A coefficient table with a missing discrimination, an infinite
    difficulty and values far outside the cleaning bounds. *)
Definition table_wild : named_matrix :=
  {| colnames := ["a"; "b"; "g"; "u"];
     mrows := [[NA; PInf; Fin 0; Fin 1];
               [Fin (-25); Fin (-7); Fin (9#10); Fin 1];
               [NInf; NA; NA; Fin 1]] |}.

(** A coefficient list with standard errors: the first item with its
    estimates and their standard errors, the second without a matrix, and
    the group parameters at the end. *)
Definition coefficients_with_se : list (string * option named_matrix) :=
  [("item_1", Some {| colnames := ["a"; "b"; "g"; "u"];
                      mrows := [[Fin 1; Fin 0; Fin (1#5); Fin 1];
                                [Fin (1#10); Fin (1#5); Fin (1#20); NA]] |});
   ("item_2", None);
   ("GroupPars", Some {| colnames := ["MEAN_1"; "COV_11"];
                         mrows := [[Fin 0; Fin 1]; [NA; NA]] |})].

(** A model of two items that reports them. *)
Definition model_with_se : FittedModel :=
  {| converged := true;
     coef_items := {| colnames := ["a"; "b"; "g"; "u"];
                      mrows := [[Fin 1; Fin 0; Fin (1#5); Fin 1];
                                [Fin 2; Fin (-1); Fin (1#10); Fin 1]] |};
     coef_printSE := Ok coefficients_with_se;
     extract_item := fun _ => Ok flat_item;
     testinfo := Ok (replicate 101 (Fin 1));
     logLik := Ok (Fin (-100)) |}.

(** A model of three plausible items the probabilities of whose item
    [broken] cannot be computed. *)
Definition model_without_probabilities (broken : nat) : FittedModel :=
  {| converged := true;
     coef_items := {| colnames := ["a"; "b"; "g"; "u"]; mrows := rows_plain |};
     coef_printSE := Err {| message := "no standard errors" |};
     extract_item := fun i =>
       if isTRUE (num_eq i (num_of_nat broken))
       then Ok {| iteminfo := iteminfo flat_item;
                  probtrace := Err {| message := "probtrace failed" |} |}
       else Ok flat_item;
     testinfo := Ok (replicate 101 (Fin 1));
     logLik := Ok (Fin (-100)) |}.

Definition env_broken_probabilities : Env :=
  sample_env (Ok (model_without_probabilities 2))
             (Ok (sample_model false rows_plain 0)) table_mixed.

(** The validated [data.csv] of the examples with [table_mixed]. *)
Definition mixed_data : data_list :=
  {| resp_clean := table_mixed; original_resp := table_mixed |}.

(** * Properties *)

(** ** Comparisons of doubles *)

Lemma Qltb_lt (p q : Q) : Qltb p q = true <-> p < q.
Proof.
  unfold Qltb. rewrite negb_true_iff. split.
  - intros Hb. apply Qnot_le_lt. intros Hle.
    apply Qle_bool_iff in Hle. congruence.
  - intros Hlt. destruct (Qle_bool q p) eqn:E; [|reflexivity].
    apply Qle_bool_iff in E. exfalso. exact (Qlt_not_le _ _ Hlt E).
Qed.

Lemma Qltb_ge (p q : Q) : Qltb p q = false <-> q <= p.
Proof.
  unfold Qltb. rewrite negb_false_iff. apply Qle_bool_iff.
Qed.

Lemma below_Fin (q bound : Q) : below (Fin q) (Fin bound) = Qltb q bound.
Proof. unfold below. simpl. destruct (Qltb q bound); reflexivity. Qed.

Lemma above_Fin (q bound : Q) : above (Fin q) (Fin bound) = Qltb bound q.
Proof. unfold above. simpl. destruct (Qltb bound q); reflexivity. Qed.

(** ** The cleaning loop is a row-wise map *)

Lemma foldl_alter_seq {A} (f : A -> A) (n k : nat) (l : list A) (j : nat) :
  foldl (fun tbl i => alter f i tbl) l (seq k n) !! j =
  if bool_decide (k <= j < k + n)%nat then f <$> l !! j else l !! j.
Proof.
  revert k l. induction n as [|n IH]; intros k l; simpl.
  - rewrite bool_decide_eq_false_2 by lia. reflexivity.
  - rewrite IH. destruct (decide (j = k)) as [->|Hne].
    + rewrite bool_decide_eq_false_2 by lia.
      rewrite bool_decide_eq_true_2 by lia.
      apply list_lookup_alter_eq.
    + rewrite list_lookup_alter_ne by congruence.
      destruct (decide (S k <= j < S k + n)%nat).
      * rewrite !bool_decide_eq_true_2 by lia. reflexivity.
      * rewrite !bool_decide_eq_false_2 by lia. reflexivity.
Qed.

Lemma clean_parameters_map (item_params : list item_row) (mt : string) :
  clean_parameters item_params mt = map (clean_item mt) item_params.
Proof.
  apply list_eq. intros j. unfold clean_parameters.
  rewrite foldl_alter_seq, list_lookup_fmap.
  destruct (item_params !! j) eqn:E.
  - apply lookup_lt_Some in E. rewrite bool_decide_eq_true_2 by lia. reflexivity.
  - destruct (bool_decide _); reflexivity.
Qed.

Ltac by_guard :=
  first
    [ reflexivity
    | match goal with
      | |- context [if ?c then _ else _] => destruct c; reflexivity
      end ].

Lemma clean_item_discrimination (mt : string) (r : item_row) :
  discrimination (clean_item mt r) = clean_discrimination (discrimination r).
Proof.
  assert (Hg : forall r', discrimination
             (if String.eqb mt "3PL" then cap_guessing (floor_guessing r') else r')
           = discrimination r').
  { intros r'. destruct (String.eqb mt "3PL"); [|reflexivity].
    unfold cap_guessing, floor_guessing.
    destruct (below (guessing r') (Fin 0)); simpl; by_guard. }
  unfold clean_item. rewrite Hg.
  assert (Hd : forall r', discrimination (cap_difficulty (floor_difficulty r'))
                          = discrimination r').
  { intros r'. unfold cap_difficulty, floor_difficulty.
    destruct (below (difficulty r') (Fin (-4))); simpl; by_guard. }
  rewrite Hd. unfold clean_discrimination.
  unfold floor_discrimination, cap_discrimination, fix_negative_discrimination.
  destruct (below (discrimination r) (Fin 0)); simpl;
    match goal with
    | |- context [above ?x (Fin 4)] => destruct (above x (Fin 4))
    end; simpl; by_guard.
Qed.

Lemma clean_item_difficulty (mt : string) (r : item_row) :
  difficulty (clean_item mt r) = clean_difficulty (difficulty r).
Proof.
  assert (Hg : forall r', difficulty
             (if String.eqb mt "3PL" then cap_guessing (floor_guessing r') else r')
           = difficulty r').
  { intros r'. destruct (String.eqb mt "3PL"); [|reflexivity].
    unfold cap_guessing, floor_guessing.
    destruct (below (guessing r') (Fin 0)); simpl; by_guard. }
  unfold clean_item. rewrite Hg.
  assert (Hd : forall r', difficulty
             (floor_discrimination (cap_discrimination (fix_negative_discrimination r')))
           = difficulty r').
  { intros r'.
    unfold floor_discrimination, cap_discrimination, fix_negative_discrimination.
    destruct (below (discrimination r') (Fin 0)); simpl;
      match goal with
      | |- context [above ?x (Fin 4)] => destruct (above x (Fin 4))
      end; simpl; by_guard. }
  unfold clean_difficulty, cap_difficulty, floor_difficulty.
  rewrite !Hd.
  destruct (below (difficulty r) (Fin (-4))); simpl; [reflexivity|].
  rewrite Hd. destruct (above (difficulty r) (Fin 4)); simpl; [reflexivity|].
  apply Hd.
Qed.

(** The cleaned discrimination of a value that is not missing lies in
    [0.1, 4]. *)
Lemma clean_discrimination_range (a : num) :
  is_na a = false ->
  exists q, clean_discrimination a = Fin q /\ (1#10) <= q /\ q <= 4.
Proof.
  intros Ha. destruct a as [| | |q|]; try discriminate.
  - exists 4. vm_compute. repeat split; discriminate.
  - unfold clean_discrimination. rewrite below_Fin.
    destruct (Qltb q 0) eqn:E0; simpl num_abs; cbv zeta;
      rewrite above_Fin;
      match goal with
      | |- context [Qltb 4 ?x] => destruct (Qltb 4 x) eqn:E4
      end; rewrite below_Fin.
    1, 3: (exists 4; split; [reflexivity | split; discriminate]).
    + destruct (Qltb (Qabs q) (1#10)) eqn:E1.
      * exists (1#10). split; [reflexivity | split; [apply Qle_refl | discriminate]].
      * exists (Qabs q). apply Qltb_ge in E1, E4. auto.
    + destruct (Qltb q (1#10)) eqn:E1.
      * exists (1#10). split; [reflexivity | split; [apply Qle_refl | discriminate]].
      * exists q. apply Qltb_ge in E1, E4. auto.
  - exists 4. vm_compute. repeat split; discriminate.
Qed.

Lemma clean_difficulty_range (b : num) :
  is_na b = false ->
  exists q, clean_difficulty b = Fin q /\ -4 <= q /\ q <= 4.
Proof.
  intros Hb. destruct b as [| | |q|]; try discriminate.
  - exists (-4). vm_compute. repeat split; discriminate.
  - unfold clean_difficulty. rewrite below_Fin.
    destruct (Qltb q (-4)) eqn:E0; cbv zeta; rewrite above_Fin.
    + exists (-4). split; [reflexivity | split; [apply Qle_refl | discriminate]].
    + destruct (Qltb 4 q) eqn:E4.
      * exists 4. split; [reflexivity | split; [discriminate | apply Qle_refl]].
      * exists q. apply Qltb_ge in E0, E4. auto.
  - exists 4. vm_compute. repeat split; discriminate.
Qed.

(** ** Extraction leaves no missing discrimination or difficulty *)

Section ExtractionFacts.
Context `{Env}.

Lemma round_is_na (x : num) (digits : Z) : is_na (round x digits) = is_na x.
Proof. destruct x; reflexivity. Qed.

Lemma extract_item_row_discrimination params se mt i row :
  discrimination (extract_item_row params se mt i row) =
  let a := vec_get (colnames params) row "a" in
  if is_na a then Fin 1 else round a 4.
Proof.
  reflexivity.
Qed.

Lemma extract_item_row_difficulty params se mt i row :
  difficulty (extract_item_row params se mt i row) =
  let b := vec_get (colnames params) row "b" in
  if is_na b then Fin 0 else round b 4.
Proof.
  reflexivity.
Qed.

Lemma extract_item_row_present params se mt i row :
  is_na (discrimination (extract_item_row params se mt i row)) = false /\
  is_na (difficulty (extract_item_row params se mt i row)) = false.
Proof.
  rewrite extract_item_row_discrimination, extract_item_row_difficulty.
  cbv zeta. split.
  - destruct (is_na (vec_get _ row "a")) eqn:E; [reflexivity|].
    rewrite round_is_na. exact E.
  - destruct (is_na (vec_get _ row "b")) eqn:E; [reflexivity|].
    rewrite round_is_na. exact E.
Qed.

End ExtractionFacts.

(** C10.  Every row produced by extraction followed by cleaning has a
    discrimination in [0.1, 4] and a difficulty in [-4, 4], whatever the
    coefficient table, the standard-error table and the model type:
    extraction puts 1.0 in place of a missing discrimination and 0.0 in
    place of a missing difficulty, so neither field is missing when cleaning
    clamps it. *)
Theorem extracted_cleaned_rows_in_range `{Env}
    (params : named_matrix) (se : option named_matrix) (mt : string) :
  let extracted := extract_item_params params se mt in
  let cleaned := clean_parameters extracted mt in
  length cleaned = length (mrows params) /\
  (forall k row, mrows params !! k = Some row ->
     exists r0, extracted !! k = Some r0 /\
       (is_na (vec_get (colnames params) row "a") = true ->
        discrimination r0 = Fin 1) /\
       (is_na (vec_get (colnames params) row "b") = true ->
        difficulty r0 = Fin 0) /\
       is_na (discrimination r0) = false /\ is_na (difficulty r0) = false) /\
  (forall r, r ∈ cleaned ->
     exists a b, discrimination r = Fin a /\ (1#10) <= a /\ a <= 4 /\
                 difficulty r = Fin b /\ -4 <= b /\ b <= 4).
Proof.
  intros extracted cleaned. subst cleaned extracted.
  rewrite clean_parameters_map. unfold extract_item_params.
  split; [|split].
  - rewrite length_map, length_imap. reflexivity.
  - intros k row Hrow. eexists. split.
    + rewrite list_lookup_imap, Hrow. reflexivity.
    + rewrite extract_item_row_discrimination, extract_item_row_difficulty.
      cbv zeta. split; [intros ->; reflexivity|].
      split; [intros ->; reflexivity|].
      pose proof (extract_item_row_present params se mt (S k) row) as Hp.
      rewrite extract_item_row_discrimination, extract_item_row_difficulty in Hp.
      exact Hp.
  - intros r Hr. apply list_elem_of_fmap in Hr as (r0 & -> & Hr0).
    apply elem_of_lookup_imap in Hr0 as (k & row & -> & _).
    destruct (extract_item_row_present params se mt (S k) row) as [Ha Hb].
    rewrite clean_item_discrimination, clean_item_difficulty.
    destruct (clean_discrimination_range _ Ha) as (a & -> & ? & ?).
    destruct (clean_difficulty_range _ Hb) as (b & -> & ? & ?).
    exists a, b. repeat split; assumption.
Qed.

(** C9.  On any table and for any model type, the cleaned discrimination
    of a row is obtained by the three steps in their fixed order (absolute
    value of a negative value, then clamp above 4.0, then clamp below 0.1);
    so 5.0 becomes exactly 4.0 and -0.05 becomes exactly 0.1. *)
Theorem clean_parameters_discrimination_steps
    (item_params : list item_row) (mt : string) (i : nat) (r : item_row) :
  item_params !! i = Some r ->
  exists r', clean_parameters item_params mt !! i = Some r' /\
    discrimination r' = clean_discrimination (discrimination r) /\
    (forall q, discrimination r = Fin q -> q == 5 ->
       discrimination r' = Fin 4) /\
    (forall q, discrimination r = Fin q -> q == -(5#100) ->
       discrimination r' = Fin (1#10)).
Proof.
  intros Hr. exists (clean_item mt r).
  rewrite clean_parameters_map, list_lookup_fmap, Hr.
  split; [reflexivity|]. rewrite clean_item_discrimination.
  split; [reflexivity|]. split.
  - intros q -> Hq. unfold clean_discrimination.
    rewrite below_Fin.
    assert (E0 : Qltb q 0 = false) by (apply Qltb_ge; lra).
    rewrite E0. cbv zeta. rewrite above_Fin.
    assert (E4 : Qltb 4 q = true) by (apply Qltb_lt; lra).
    rewrite E4. reflexivity.
  - intros q -> Hq. unfold clean_discrimination.
    rewrite below_Fin.
    assert (E0 : Qltb q 0 = true) by (apply Qltb_lt; lra).
    rewrite E0. simpl num_abs. cbv zeta. rewrite above_Fin.
    assert (Habs : Qabs q == 5#100).
    { rewrite Qabs_neg by lra. lra. }
    assert (E4 : Qltb 4 (Qabs q) = false) by (apply Qltb_ge; lra).
    rewrite E4. rewrite below_Fin.
    assert (E1 : Qltb (Qabs q) (1#10) = true) by (apply Qltb_lt; lra).
    rewrite E1. reflexivity.
Qed.

(** ** The plausibility check *)

Lemma lgl_any_false (v : list lgl) :
  lgl_any v = Some false <-> Forall (fun x => x = Some false) v.
Proof.
  induction v as [|x v IH]; simpl.
  - split; [constructor | reflexivity].
  - rewrite Forall_cons, <- IH.
    destruct x as [[|]|], (lgl_any v) as [[|]|]; simpl;
      split; try discriminate; try tauto; intros [? ?]; discriminate.
Qed.

Lemma lgl_any_true (v : list lgl) :
  lgl_any v = Some true <-> Exists (fun x => x = Some true) v.
Proof.
  induction v as [|x v IH]; simpl.
  - split; [discriminate | intros Hex; inversion Hex].
  - rewrite Exists_cons, <- IH.
    destruct x as [[|]|], (lgl_any v) as [[|]|]; simpl;
      split; try discriminate; try tauto; intros [? | ?]; discriminate.
Qed.

Lemma lgl_any_definite (v : list lgl) :
  Forall (fun x => x <> None) v -> lgl_any v <> None.
Proof.
  induction 1 as [|x v Hx _ IH]; simpl; [discriminate|].
  destruct x as [[|]|], (lgl_any v) as [[|]|]; simpl; congruence.
Qed.

Lemma num_lt_Fin_true (p q : Q) : num_lt (Fin p) (Fin q) = Some true <-> p < q.
Proof.
  simpl. rewrite <- Qltb_lt. split; [congruence | intros ->; reflexivity].
Qed.

Lemma num_lt_Fin_false (p q : Q) : num_lt (Fin p) (Fin q) = Some false <-> q <= p.
Proof.
  simpl. rewrite <- Qltb_ge. split; [congruence | intros ->; reflexivity].
Qed.

Lemma lgl_or_false (x y : lgl) :
  lgl_or x y = Some false <-> x = Some false /\ y = Some false.
Proof.
  destruct x as [[|]|], y as [[|]|]; simpl; split;
    try discriminate; try tauto; intros [? ?]; discriminate.
Qed.

(** The element-wise test is [FALSE] exactly on the items within the closed
    bounds. *)
Lemma extreme_item_false (a b g : num) :
  extreme_item a b g = Some false <-> plausible a b g.
Proof.
  unfold extreme_item, plausible, num_gt. rewrite !lgl_or_false. split.
  - intros (((((Ha1 & Ha2) & Hb1) & Hb2) & Hg1) & Hg2).
    destruct a as [| | |qa|]; try discriminate.
    destruct b as [| | |qb|]; try discriminate.
    destruct g as [| | |qg|]; try discriminate.
    apply num_lt_Fin_false in Ha1, Ha2, Hb1, Hb2, Hg1, Hg2.
    exists qa, qb, qg. repeat split; assumption.
  - intros (qa & qb & qg & -> & -> & -> & ? & ? & ? & ? & ? & ?).
    rewrite !num_lt_Fin_false. repeat split; assumption.
Qed.

Lemma extreme_item_definite (a b g : num) :
  present a b g -> extreme_item a b g <> None.
Proof.
  intros (Ha & Hb & Hg).
  destruct a as [| | |qa|], b as [| | |qb|], g as [| | |qg|]; try discriminate;
    unfold extreme_item, num_gt; simpl;
    repeat match goal with
           | |- context [Qltb ?x ?y] => destruct (Qltb x y)
           end; simpl; discriminate.
Qed.

Lemma extreme_items_map {A} (fa fb fg : A -> num) (rows : list A) :
  extreme_items (map fa rows) (map fb rows) (map fg rows) =
  map (fun r => extreme_item (fa r) (fb r) (fg r)) rows.
Proof.
  induction rows as [|r rows IH]; simpl; [reflexivity|]. rewrite IH. reflexivity.
Qed.

Lemma matrix_col_has_name (m : named_matrix) (name : string) :
  has_name name (colnames m) = true ->
  matrix_col m name = Ok (map (fun row => vec_get (colnames m) row name) (mrows m)).
Proof.
  unfold has_name, matrix_col, vec_get.
  destruct (col_index name (colnames m)); [reflexivity | discriminate].
Qed.

Lemma matrix_col_missing (m : named_matrix) (name : string) :
  has_name name (colnames m) = false ->
  matrix_col m name = Err {| message := "subscript out of bounds" |}.
Proof.
  unfold has_name, matrix_col.
  destruct (col_index name (colnames m)); [discriminate | reflexivity].
Qed.

Lemma matrix_col_Ok (m : named_matrix) (name : string) (v : list num) :
  matrix_col m name = Ok v -> has_name name (colnames m) = true.
Proof.
  unfold has_name, matrix_col.
  destruct (col_index name (colnames m)); [reflexivity | discriminate].
Qed.

Lemma verdict_false (m : FittedModel) :
  has_name "a" (colnames (coef_items m)) = true ->
  has_name "b" (colnames (coef_items m)) = true ->
  has_name "g" (colnames (coef_items m)) = true ->
  verdict m = Some false <-> items_satisfy plausible m.
Proof.
  intros Ha Hb Hg. unfold verdict, items_satisfy.
  rewrite lgl_any_false, Forall_fmap.
  split.
  - intros HF. repeat split; try assumption.
    eapply Forall_impl; [exact HF|]. intros row Hrow. apply extreme_item_false, Hrow.
  - intros (_ & _ & _ & HF).
    eapply Forall_impl; [exact HF|]. intros row Hrow. apply extreme_item_false, Hrow.
Qed.

Section FittingFacts.
Context `{Env}.

(** The check reads the model only: it leaves the world as it is. *)
Lemma check_3pl_world (mo : option FittedModel) (w : world) :
  (check_3pl mo w).2 = w.
Proof.
  destruct mo as [m|]; [|reflexivity]. unfold check_3pl.
  destruct (converged m); [|reflexivity].
  unfold bind, lift.
  destruct (matrix_col (coef_items m) "a"); [|reflexivity].
  destruct (matrix_col (coef_items m) "b"); [|reflexivity].
  destruct (matrix_col (coef_items m) "g"); [|reflexivity].
  unfold r_if.
  destruct (lgl_not _) as [[|]|]; reflexivity.
Qed.

(** The check on a converged model with the three columns. *)
Lemma check_3pl_converged (m : FittedModel) (w : world) :
  converged m = true ->
  has_name "a" (colnames (coef_items m)) = true ->
  has_name "b" (colnames (coef_items m)) = true ->
  has_name "g" (colnames (coef_items m)) = true ->
  check_3pl (Some m) w =
  match verdict m with
  | Some false => (Ok (Some {| model := m; type := "3PL" |}), w)
  | Some true => (Ok None, w)
  | None => (Err {| message := "missing value where TRUE/FALSE needed" |}, w)
  end.
Proof.
  intros Hc Ha Hb Hg. unfold check_3pl. rewrite Hc.
  rewrite !matrix_col_has_name by assumption.
  unfold bind, lift. rewrite extreme_items_map. fold (verdict m).
  destruct (verdict m) as [[|]|]; reflexivity.
Qed.

(** An early return of the check is the 3PL model itself, converged and
    within the bounds. *)
Lemma check_3pl_Some (mo : option FittedModel) (w w' : world) (r : fit_result) :
  check_3pl mo w = (Ok (Some r), w') ->
  exists m, mo = Some m /\ r = {| model := m; type := "3PL" |} /\
            converged m = true /\ items_satisfy plausible m.
Proof.
  destruct mo as [m|]; [|discriminate]. intros Hck. exists m.
  destruct (converged m) eqn:Hc;
    [|unfold check_3pl in Hck; rewrite Hc in Hck; discriminate].
  destruct (has_name "a" (colnames (coef_items m))) eqn:Ha;
    [|unfold check_3pl, bind, lift in Hck;
      rewrite Hc, (matrix_col_missing _ _ Ha) in Hck; discriminate].
  destruct (has_name "b" (colnames (coef_items m))) eqn:Hb;
    [|unfold check_3pl, bind, lift in Hck;
      rewrite Hc, (matrix_col_has_name _ _ Ha), (matrix_col_missing _ _ Hb) in Hck;
      discriminate].
  destruct (has_name "g" (colnames (coef_items m))) eqn:Hg;
    [|unfold check_3pl, bind, lift in Hck;
      rewrite Hc, (matrix_col_has_name _ _ Ha), (matrix_col_has_name _ _ Hb),
        (matrix_col_missing _ _ Hg) in Hck;
      discriminate].
  rewrite (check_3pl_converged m w Hc Ha Hb Hg) in Hck.
  destruct (verdict m) as [[|]|] eqn:Hv; try discriminate.
  injection Hck as <- _.
  split; [reflexivity|]. split; [reflexivity|]. split; [reflexivity|].
  apply verdict_false; assumption.
Qed.


Lemma record_calls_app (c1 c2 : list (response_matrix * string)) (w : world) :
  record_calls c2 (record_calls c1 w) = record_calls (c1 ++ c2) w.
Proof. unfold record_calls. simpl. rewrite <- app_assoc. reflexivity. Qed.

(** [fit_irt_model] in terms of the engine's answer to the 3PL request and
    of the check. *)
Lemma fit_irt_model_unfold (resp : response_matrix) (w : world) :
  fit_irt_model resp w =
  let w1 := record_calls [(resp, "3PL")] w in
  let model_3pl := match mirt_engine resp "3PL" with
                   | Ok m => Some m
                   | Err _ => None
                   end in
  match (check_3pl model_3pl w1).1 with
  | Ok (Some r) => (Ok r, w1)
  | Ok None => (simple_outcome resp, record_calls [(resp, "3PL"); (resp, "2PL")] w)
  | Err e => (Err e, w1)
  end.
Proof.
  cbv zeta. unfold fit_irt_model, tryCatch, bind at 1 2 3, mirt, ret.
  set (w1 := record_calls [(resp, "3PL")] w).
  assert (Hstep : forall mo,
    match check_3pl mo w1 with
    | (Ok a, w') =>
        match a with
        | Some r => fun w0 => (Ok r, w0)
        | None => bind (fun w0 => (mirt_engine resp "2PL",
                                   record_calls [(resp, "2PL")] w0))
                       (fun model_2pl w0 =>
                          (Ok {| model := model_2pl; type := "2PL" |}, w0))
        end w'
    | (Err e, w') => (Err e, w')
    end =
    match (check_3pl mo w1).1 with
    | Ok (Some r) => (Ok r, w1)
    | Ok None => (simple_outcome resp,
                  record_calls [(resp, "3PL"); (resp, "2PL")] w)
    | Err e => (Err e, w1)
    end).
  { intros mo. pose proof (check_3pl_world mo w1) as Hw.
    destruct (check_3pl mo w1) as [[[r|]|e] w']; simpl in *; subst w'.
    - reflexivity.
    - unfold bind, simple_outcome. subst w1. rewrite record_calls_app.
      destruct (mirt_engine resp "2PL"); reflexivity.
    - reflexivity. }
  destruct (mirt_engine resp "3PL") as [m|e]; apply Hstep.
Qed.

(** Once the fallback is reached, the 2PL answer of the engine is the
    result, and the engine has been called twice. *)
Lemma fit_irt_model_fallback (resp : response_matrix) (w : world) :
  falls_back resp ->
  fit_irt_model resp w =
  (simple_outcome resp, record_calls [(resp, "3PL"); (resp, "2PL")] w).
Proof.
  intros Hfb. rewrite fit_irt_model_unfold. cbv zeta.
  unfold falls_back in Hfb.
  destruct (mirt_engine resp "3PL") as [m|e]; [|reflexivity].
  destruct Hfb as [Hc | (a & b & g & Ea & Eb & Eg & Hany)].
  - unfold check_3pl. rewrite Hc. reflexivity.
  - unfold check_3pl. destruct (converged m); [|reflexivity].
    unfold bind, lift. rewrite Ea, Eb, Eg, Hany. reflexivity.
Qed.

(** A fit records its engine calls, the 3PL request first, and touches
    neither the cache nor the response status. *)
Lemma fit_irt_model_world (resp : response_matrix) (w : world) :
  exists rest, (fit_irt_model resp w).2 = record_calls ((resp, "3PL") :: rest) w.
Proof.
  rewrite fit_irt_model_unfold. cbv zeta.
  destruct (check_3pl _ _).1 as [[r|]|e].
  - exists []. reflexivity.
  - exists [(resp, "2PL")]. reflexivity.
  - exists []. reflexivity.
Qed.

(** A converged model none of whose coefficients is missing is within the
    bounds or sends the fit to the fallback. *)
Lemma present_verdict (m : FittedModel) :
  items_satisfy present m -> verdict m = Some false \/ verdict m = Some true.
Proof.
  intros (_ & _ & _ & HF).
  assert (Hd : verdict m <> None).
  { unfold verdict. apply lgl_any_definite. rewrite Forall_fmap.
    eapply Forall_impl; [exact HF|]. intros row Hrow.
    apply extreme_item_definite, Hrow. }
  destruct (verdict m) as [[|]|]; [right | left | ]; congruence.
Qed.

Lemma not_accepted_falls_back (resp : response_matrix) :
  coefficients_present resp ->
  (forall m, ~ rich_accepted resp m) ->
  falls_back resp.
Proof.
  intros Hpres Hno. unfold falls_back.
  destruct (mirt_engine resp "3PL") as [m|e] eqn:E; [|exact I].
  destruct (converged m) eqn:Hc; [right | left; reflexivity].
  pose proof (Hpres m E Hc) as Hp.
  destruct Hp as (Ha & Hb & Hg & HF).
  exists (map (fun row => vec_get (colnames (coef_items m)) row "a") (mrows (coef_items m))),
         (map (fun row => vec_get (colnames (coef_items m)) row "b") (mrows (coef_items m))),
         (map (fun row => vec_get (colnames (coef_items m)) row "g") (mrows (coef_items m))).
  rewrite !matrix_col_has_name by assumption.
  split; [reflexivity|]. split; [reflexivity|]. split; [reflexivity|].
  rewrite extreme_items_map. fold (verdict m).
  destruct (present_verdict m) as [Hv | Hv]; [repeat split; assumption | | exact Hv].
  exfalso. apply (Hno m). split; [exact E|]. split; [exact Hc|].
  apply verdict_false; assumption.
Qed.

(** The check falls through exactly in the three situations of
    [falls_back]. *)
Lemma check_3pl_None (resp : response_matrix) (w : world) :
  (check_3pl (match mirt_engine resp "3PL" with
              | Ok m => Some m
              | Err _ => None
              end) w).1 = Ok None ->
  falls_back resp.
Proof.
  unfold falls_back. destruct (mirt_engine resp "3PL") as [m|e]; [|intros _; exact I].
  unfold check_3pl. destruct (converged m); [|intros _; left; reflexivity].
  unfold bind, lift.
  destruct (matrix_col (coef_items m) "a") as [a|]; [|discriminate].
  destruct (matrix_col (coef_items m) "b") as [b|]; [|discriminate].
  destruct (matrix_col (coef_items m) "g") as [g|]; [|discriminate].
  destruct (lgl_any (extreme_items a b g)) as [[|]|] eqn:Hany; try discriminate.
  intros _. right. exists a, b, g. repeat split; reflexivity || exact Hany.
Qed.

(** The 2PL request is made exactly when the fallback is reached. *)
Lemma second_call_iff_falls_back (resp : response_matrix) (w : world) :
  (resp, "2PL") ∈ drop (length (engine_calls w)) (engine_calls (fit_irt_model resp w).2)
  <-> falls_back resp.
Proof.
  split.
  - rewrite fit_irt_model_unfold. cbv zeta.
    destruct (check_3pl _ _).1 as [[r|]|e] eqn:Hck; simpl.
    + rewrite drop_app_length. intros Hin.
      apply list_elem_of_singleton in Hin. discriminate.
    + intros _. eapply check_3pl_None. exact Hck.
    + rewrite drop_app_length. intros Hin.
      apply list_elem_of_singleton in Hin. discriminate.
  - intros Hfb. rewrite (fit_irt_model_fallback resp w Hfb). simpl.
    rewrite drop_app_length. right. left.
Qed.
End FittingFacts.


(** C1 (amended).  [fit_irt_model] returns the 3PL model exactly when the
    3PL call succeeds, the model reports convergence and every item has a
    discrimination in [0.01, 10], a difficulty in [-10, 10] and a guessing
    in [0, 0.5] (the lower bound 0.01 included).  Otherwise, when no
    compared coefficient is missing, it makes the 2PL fit and returns type
    2PL as soon as the engine returns a model.  A fit that returns has one
    of the two types. *)
Theorem fit_rich_iff_within_bounds `{Env} (resp : response_matrix) (w : world) :
  (forall m, (fit_irt_model resp w).1 = Ok {| model := m; type := "3PL" |}
             <-> rich_accepted resp m) /\
  (coefficients_present resp -> (forall m, ~ rich_accepted resp m) ->
   (fit_irt_model resp w).1 = simple_outcome resp /\
   forall m2, mirt_engine resp "2PL" = Ok m2 ->
     (fit_irt_model resp w).1 = Ok {| model := m2; type := "2PL" |}) /\
  (forall r, (fit_irt_model resp w).1 = Ok r ->
     (type r = "3PL" /\ rich_accepted resp (model r)) \/
     (type r = "2PL" /\ mirt_engine resp "2PL" = Ok (model r))).
Proof.
  split; [|split].
  - intros m. rewrite fit_irt_model_unfold. cbv zeta. split.
    + intros Hfit.
      destruct (check_3pl _ _) as [[[r|]|e] w'] eqn:Hck; simpl in Hfit.
      * injection Hfit as ->.
        apply check_3pl_Some in Hck as (m' & Hmo & Hr & Hc & Hpl).
        injection Hr as <-.
        destruct (mirt_engine resp "3PL") as [m''|] eqn:E; [|discriminate].
        injection Hmo as ->. split; [exact E|]. split; assumption.
      * unfold simple_outcome in Hfit.
        destruct (mirt_engine resp "2PL"); discriminate.
      * discriminate.
    + intros (E & Hc & Hpl). rewrite E.
      destruct Hpl as (Ha & Hb & Hg & HF).
      rewrite check_3pl_converged by assumption.
      assert (Hv : verdict m = Some false)
        by (apply verdict_false; [| | |repeat split]; assumption).
      rewrite Hv. reflexivity.
  - intros Hpres Hno.
    rewrite fit_irt_model_fallback by (apply not_accepted_falls_back; assumption).
    split; [reflexivity|]. intros m2 E2. simpl. unfold simple_outcome.
    rewrite E2. reflexivity.
  - intros r. rewrite fit_irt_model_unfold. cbv zeta. intros Hfit.
    destruct (check_3pl _ _) as [[[r'|]|e] w'] eqn:Hck; simpl in Hfit.
    + injection Hfit as ->.
      apply check_3pl_Some in Hck as (m' & Hmo & -> & Hc & Hpl).
      left. split; [reflexivity|]. simpl.
      destruct (mirt_engine resp "3PL") as [m''|] eqn:E; [|discriminate].
      injection Hmo as ->. split; [exact E|]. split; assumption.
    + right. unfold simple_outcome in Hfit.
      destruct (mirt_engine resp "2PL") as [m2|]; [|discriminate].
      injection Hfit as <-. split; reflexivity.
    + discriminate.
Qed.

(** C4.  Once the fallback is reached, the model the engine returns for the
    2PL request is the result of the fit as it is, whatever its convergence
    flag and its coefficients; and an error of the 2PL call is the error of
    the fit: it is not caught and no further call is made. *)
Theorem simple_fit_accepted_unchecked `{Env} (resp : response_matrix) (w : world) :
  falls_back resp ->
  (forall m2, mirt_engine resp "2PL" = Ok m2 ->
     (fit_irt_model resp w).1 = Ok {| model := m2; type := "2PL" |}) /\
  (forall e, mirt_engine resp "2PL" = Err e ->
     (fit_irt_model resp w).1 = Err e) /\
  (fit_irt_model resp w).2 = record_calls [(resp, "3PL"); (resp, "2PL")] w.
Proof.
  intros Hfb. rewrite fit_irt_model_fallback by assumption. simpl.
  unfold simple_outcome.
  split; [|split].
  - intros m2 ->. reflexivity.
  - intros e ->. reflexivity.
  - reflexivity.
Qed.

(** ** The cache *)

Section CacheFacts.
Context `{Env}.

Lemma eqb_empty_false (key : string) : key <> "" -> String.eqb key "" = false.
Proof. intros Hne. apply String.eqb_neq, Hne. Qed.

Lemma get_or_fit_model_empty (resp : response_matrix) (w : world) :
  get_or_fit_model "" resp w = (Err {| message := "invalid first argument" |}, w).
Proof. reflexivity. Qed.

Lemma get_or_fit_model_hit (key : string) (resp : response_matrix) (w : world)
    (v : fit_result) :
  key <> "" -> irt_model_cache w !! key = Some v ->
  get_or_fit_model key resp w = (Ok v, w).
Proof.
  intros Hne Hv. unfold get_or_fit_model, r_exists, bind.
  rewrite (eqb_empty_false _ Hne), Hv. simpl. unfold r_get. rewrite Hv. reflexivity.
Qed.

Lemma get_or_fit_model_miss (key : string) (resp : response_matrix) (w : world) :
  key <> "" -> irt_model_cache w !! key = None ->
  get_or_fit_model key resp w =
  match fit_irt_model resp w with
  | (Ok r, w') => (Ok r, {| irt_model_cache := <[key := r]> (irt_model_cache w');
                            engine_calls := engine_calls w';
                            res_status := res_status w' |})
  | (Err e, w') => (Err e, w')
  end.
Proof.
  intros Hne Hv. unfold get_or_fit_model, r_exists, bind at 1.
  rewrite (eqb_empty_false _ Hne), Hv. simpl. unfold bind, r_assign.
  rewrite (eqb_empty_false _ Hne).
  destruct (fit_irt_model resp w) as [[r|e] w']; reflexivity.
Qed.

(** A call that fails leaves the cache as it was. *)
Lemma get_or_fit_model_Err (key : string) (resp : response_matrix)
    (w w' : world) (c : condition) :
  get_or_fit_model key resp w = (Err c, w') ->
  irt_model_cache w' = irt_model_cache w.
Proof.
  destruct (decide (key = "")) as [->|Hne].
  { rewrite get_or_fit_model_empty. intros [= _ <-]. reflexivity. }
  destruct (irt_model_cache w !! key) as [v|] eqn:Hv.
  { rewrite (get_or_fit_model_hit _ _ _ _ Hne Hv). discriminate. }
  rewrite (get_or_fit_model_miss _ _ _ Hne Hv).
  destruct (fit_irt_model_world resp w) as [rest Hw].
  destruct (fit_irt_model resp w) as [[r|e] w1]; [discriminate|].
  intros [= _ <-]. simpl in Hw. rewrite Hw. reflexivity.
Qed.

(** A call that returns has its result stored under the key. *)
Lemma get_or_fit_model_Ok (key : string) (resp : response_matrix)
    (w w' : world) (v : fit_result) :
  get_or_fit_model key resp w = (Ok v, w') ->
  key <> "" /\ irt_model_cache w' !! key = Some v.
Proof.
  intros Hcall.
  destruct (decide (key = "")) as [->|Hne].
  { rewrite get_or_fit_model_empty in Hcall. discriminate. }
  split; [exact Hne|]. revert Hcall.
  destruct (irt_model_cache w !! key) as [v0|] eqn:Hv.
  { rewrite (get_or_fit_model_hit _ _ _ _ Hne Hv). intros [= <- <-]. exact Hv. }
  rewrite (get_or_fit_model_miss _ _ _ Hne Hv).
  destruct (fit_irt_model resp w) as [[r|e] w1]; [|discriminate].
  intros [= <- <-]. simpl. apply lookup_insert_eq.
Qed.

(** No call changes an entry that is already stored. *)
Lemma get_or_fit_model_keeps (key key' : string) (resp : response_matrix)
    (w : world) (v : fit_result) :
  irt_model_cache w !! key = Some v ->
  irt_model_cache (get_or_fit_model key' resp w).2 !! key = Some v.
Proof.
  intros Hv.
  destruct (decide (key' = "")) as [->|Hne].
  { rewrite get_or_fit_model_empty. exact Hv. }
  destruct (irt_model_cache w !! key') as [v'|] eqn:Hv'.
  { rewrite (get_or_fit_model_hit _ _ _ _ Hne Hv'). exact Hv. }
  rewrite (get_or_fit_model_miss _ _ _ Hne Hv').
  destruct (fit_irt_model_world resp w) as [rest Hw].
  destruct (fit_irt_model resp w) as [[r|e] w1]; simpl in *; subst w1; simpl.
  - rewrite lookup_insert_ne; [exact Hv|]. intros ->. congruence.
  - exact Hv.
Qed.

Lemma after_calls_keeps (calls : list (string * response_matrix)) (key : string)
    (w : world) (v : fit_result) :
  irt_model_cache w !! key = Some v ->
  irt_model_cache (after_calls calls w) !! key = Some v.
Proof.
  revert w. induction calls as [|[key' resp] calls IH]; intros w Hv; simpl.
  - exact Hv.
  - apply IH, get_or_fit_model_keeps, Hv.
Qed.

End CacheFacts.

(** C6.  After a call of [get_or_fit_model] for a key has returned an
    entry, every later call for that key, whatever matrix it is given and
    whatever calls were made in between, returns that same entry and leaves
    the world as it is: the cache is not changed and the engine is not
    called. *)
Theorem get_or_fit_model_returns_stored `{Env} (key : string)
    (M : response_matrix) (w w1 : world) (entry : fit_result) :
  get_or_fit_model key M w = (Ok entry, w1) ->
  forall (calls : list (string * response_matrix)) (M' : response_matrix),
    let w2 := after_calls calls w1 in
    get_or_fit_model key M' w2 = (Ok entry, w2).
Proof.
  intros Hfirst calls M' w2.
  apply get_or_fit_model_Ok in Hfirst as [Hne Hstored].
  apply get_or_fit_model_hit; [exact Hne|].
  apply after_calls_keeps, Hstored.
Qed.

(** C7.  A call of [get_or_fit_model] that fails leaves the cache as it
    was, and a call that returns changes the cache only by storing under the
    key the result of a fit that returned.  In particular, when the fit
    raises for a key that has no entry, the error is the result of the call,
    the key still has no entry, and the next call for that key runs the fit
    again, starting with a 3PL request to the engine. *)
Theorem failed_fit_not_cached `{Env} (key : string) (M : response_matrix)
    (w : world) :
  (forall c w', get_or_fit_model key M w = (Err c, w') ->
     irt_model_cache w' = irt_model_cache w) /\
  (forall v w', get_or_fit_model key M w = (Ok v, w') ->
     irt_model_cache w' = irt_model_cache w \/
     ((fit_irt_model M w).1 = Ok v /\
      irt_model_cache w' = <[key := v]> (irt_model_cache w))) /\
  (forall c w1, key <> "" -> irt_model_cache w !! key = None ->
     fit_irt_model M w = (Err c, w1) ->
     get_or_fit_model key M w = (Err c, w1) /\
     irt_model_cache w1 !! key = None /\
     forall M',
       (get_or_fit_model key M' w1).1 = (fit_irt_model M' w1).1 /\
       exists rest,
         engine_calls (get_or_fit_model key M' w1).2 =
         engine_calls w1 ++ (M', "3PL") :: rest).
Proof.
  split; [|split].
  - intros c w' Herr. exact (get_or_fit_model_Err _ _ _ _ _ Herr).
  - intros v w' Hcall.
    destruct (get_or_fit_model_Ok _ _ _ _ _ Hcall) as [Hne _].
    destruct (irt_model_cache w !! key) as [v0|] eqn:Hv.
    + rewrite (get_or_fit_model_hit _ _ _ _ Hne Hv) in Hcall.
      injection Hcall as _ <-. left. reflexivity.
    + rewrite (get_or_fit_model_miss _ _ _ Hne Hv) in Hcall.
      destruct (fit_irt_model_world M w) as [rest Hw].
      destruct (fit_irt_model M w) as [[r|e] w1]; [|discriminate].
      simpl in Hw. subst w1. injection Hcall as <- <-. right.
      split; reflexivity.
  - intros c w1 Hne Hnone Hfit.
    assert (Hcall : get_or_fit_model key M w = (Err c, w1)).
    { rewrite (get_or_fit_model_miss _ _ _ Hne Hnone), Hfit. reflexivity. }
    assert (Hnone1 : irt_model_cache w1 !! key = None).
    { rewrite (get_or_fit_model_Err _ _ _ _ _ Hcall). exact Hnone. }
    split; [exact Hcall|]. split; [exact Hnone1|].
    intros M'. rewrite (get_or_fit_model_miss _ _ _ Hne Hnone1).
    destruct (fit_irt_model_world M' w1) as [rest Hw].
    destruct (fit_irt_model M' w1) as [[r|e] w2]; simpl in *; subst w2;
      (split; [reflexivity | exists rest; reflexivity]).
Qed.

(** ** Validation *)



Lemma in_binary_same (x y : num) :
  num_same x y = true -> in_binary x = in_binary y.
Proof.
  destruct x as [| | |p|], y as [| | |q|]; simpl; try discriminate; try reflexivity.
  intros Hpq. apply Qeq_bool_iff in Hpq.
  rewrite (Qeqb_comp p q Hpq 0 0 (Qeq_refl 0)), (Qeqb_comp p q Hpq 1 1 (Qeq_refl 1)).
  reflexivity.
Qed.

Lemma forallb_filter_same (x : num) (v : list num) :
  in_binary x = true ->
  forallb in_binary (List.filter (fun y => negb (num_same x y)) v) =
  forallb in_binary v.
Proof.
  intros Hx. induction v as [|y v IH]; simpl; [reflexivity|].
  destruct (num_same x y) eqn:E; simpl.
  - rewrite <- (in_binary_same _ _ E), Hx. exact IH.
  - rewrite IH. reflexivity.
Qed.

(** The test on the distinct values decides whether every cell is binary. *)
Lemma forallb_unique (v : list num) :
  forallb in_binary (unique v) = forallb in_binary v.
Proof.
  induction v as [|x v IH]; simpl; [reflexivity|].
  destruct (in_binary x) eqn:Hx; simpl; [|reflexivity].
  rewrite forallb_filter_same by exact Hx. exact IH.
Qed.










Lemma foldl_num_add_Fin (v : list num) (acc : Q) :
  Forall (fun x => exists q, x = Fin q) v ->
  exists s, foldl num_add (Fin acc) v = Fin s.
Proof.
  intros HF. revert acc. induction HF as [|x v [q ->] _ IH]; intros acc; simpl.
  - exists acc. reflexivity.
  - apply IH.
Qed.

(** The cells of a binary row that are present are 0 or 1. *)
Lemma present_zero_or_one (row : list num) :
  forallb in_binary row = true ->
  forallb zero_or_one (List.filter (fun x => negb (is_na x)) row) = true.
Proof.
  induction row as [|x row IH]; simpl; [reflexivity|]. intros Hb.
  apply andb_true_iff in Hb as [Hx Hrow].
  destruct x as [| | |q|]; simpl in *; try discriminate.
  - apply IH, Hrow.
  - rewrite Hx. apply IH, Hrow.
Qed.

(** The exact sum of a binary row is a finite number. *)
Lemma exact_sum_binary (row : list num) :
  forallb in_binary row = true -> exists s, exact_sum row = Fin s.
Proof.
  intros Hb. unfold exact_sum. apply foldl_num_add_Fin.
  induction row as [|x row IH]; simpl; [constructor|].
  simpl in Hb. apply andb_true_iff in Hb as [Hx Hrow].
  destruct x as [| | |q|]; simpl in *; try discriminate.
  - apply IH, Hrow.
  - constructor; [eexists; reflexivity | apply IH, Hrow].
Qed.

(** The sum that [rowSums] gives for a binary row is the exact one,
    whatever the environment. *)
Lemma row_sum_binary `{Env} (row : list num) :
  forallb in_binary row = true -> row_sum row = exact_sum row.
Proof.
  intros Hb. unfold row_sum. cbv zeta.
  rewrite (present_zero_or_one row Hb). reflexivity.
Qed.

Lemma valid_row_Fin (nc : nat) (row : list num) (s : Q) :
  exact_sum row = Fin s ->
  valid_row nc (exact_sum row) = Some (strictly_between nc row).
Proof.
  intros Hs. unfold strictly_between, valid_row, num_gt, num_of_nat.
  rewrite Hs. simpl.
  destruct (Qltb 0 s), (Qltb s (inject_Z (Z.of_nat nc))); reflexivity.
Qed.

Lemma forallb_concat (rows : list (list num)) :
  forallb in_binary (concat rows) = forallb (forallb in_binary) rows.
Proof.
  induction rows as [|r rows IH]; simpl; [reflexivity|].
  rewrite forallb_app, IH. reflexivity.
Qed.

(** On binary rows the logical index selects the rows whose sum is strictly
    between 0 and the item count, and none of its elements is missing. *)
Lemma valid_rows_binary `{Env} (nc : nat) (rows : list (list num)) :
  forallb (forallb in_binary) rows = true ->
  lgl_sum (map (valid_row nc) (map row_sum rows)) =
    Some (length (List.filter (strictly_between nc) rows)) /\
  subset_rows nc rows (map (valid_row nc) (map row_sum rows)) =
    List.filter (strictly_between nc) rows.
Proof.
  induction rows as [|row rows IH]; intros Hb; simpl; [split; reflexivity|].
  simpl in Hb. apply andb_true_iff in Hb as [Hrow Hrows].
  destruct (IH Hrows) as [IHsum IHsub].
  destruct (exact_sum_binary row Hrow) as [s Hs].
  rewrite (row_sum_binary row Hrow), (valid_row_Fin nc row s Hs), IHsum, IHsub.
  destruct (strictly_between nc row); split; reflexivity.
Qed.

Section ValidationFacts.
Context `{Env}.

(** Validation of a table all of whose cells are 0, 1 or [NA]. *)
Lemma validate_binary (path : string) (resp : response_matrix) (w : world) :
  read_csv path = Ok resp ->
  forallb in_binary (as_vector resp) = true ->
  let kept := List.filter (strictly_between (ncol resp)) (cells resp) in
  validate_and_clean_data (Some path) w =
  if bool_decide (length kept < 10)%nat
  then (Err {| message := "errorNot enough valid response patterns after filtering" |},
        with_status 400 w)
  else (Ok {| resp_clean := {| ncol := ncol resp; cells := kept |};
              original_resp := resp |}, w).
Proof.
  intros Hread Hbin kept. unfold validate_and_clean_data, bind at 1, lift.
  rewrite Hread, forallb_unique, Hbin. simpl negb. cbv iota.
  unfold as_vector in Hbin. rewrite forallb_concat in Hbin.
  destruct (valid_rows_binary (ncol resp) (cells resp) Hbin) as [Hsum Hsub].
  unfold rowSums. rewrite Hsum, Hsub. fold kept.
  unfold bind, r_if, count_below_10. simpl.
  destruct (bool_decide (length kept < 10)%nat); reflexivity.
Qed.

(** Validation of a table with a cell that is not 0, 1 or [NA]. *)
Lemma validate_nonbinary (path : string) (resp : response_matrix) (w : world) :
  read_csv path = Ok resp ->
  forallb in_binary (as_vector resp) = false ->
  validate_and_clean_data (Some path) w =
  (Err {| message := "error" +:+ found_message (unique (as_vector resp)) |},
   with_status 400 w).
Proof.
  intros Hread Hbin. unfold validate_and_clean_data, bind at 1, lift.
  rewrite Hread, forallb_unique, Hbin. reflexivity.
Qed.


End ValidationFacts.

(** C5.  On a table all of whose cells are 0, 1 or missing ([NA]; a [NaN]
    cell does not pass the schema check), validation keeps exactly the rows
    whose sum is strictly between 0 and the item count, in their order; it
    fails with the not-enough-rows error (status 400) when fewer than 10
    such rows remain and returns the cleaned matrix together with the
    original one otherwise.  With exactly 10 such rows the table is
    accepted, with 9 it is rejected. *)
Theorem validate_keeps_rows_strictly_between `{Env}
    (path : string) (resp : response_matrix) (w : world) :
  read_csv path = Ok resp ->
  forallb in_binary (as_vector resp) = true ->
  let kept := List.filter (strictly_between (ncol resp)) (cells resp) in
  let accepted := (Ok {| resp_clean := {| ncol := ncol resp; cells := kept |};
                         original_resp := resp |}, w) in
  let rejected :=
    (Err {| message := "errorNot enough valid response patterns after filtering" |},
     with_status 400 w) in
  ((length kept < 10)%nat -> validate_and_clean_data (Some path) w = rejected) /\
  ((10 <= length kept)%nat -> validate_and_clean_data (Some path) w = accepted) /\
  (length kept = 10%nat -> validate_and_clean_data (Some path) w = accepted) /\
  (length kept = 9%nat -> validate_and_clean_data (Some path) w = rejected).
Proof.
  intros Hread Hbin kept accepted rejected.
  pose proof (validate_binary path resp w Hread Hbin) as Hv. cbv zeta in Hv.
  fold kept in Hv. subst accepted rejected.
  repeat split; intros Hlen; rewrite Hv.
  - rewrite bool_decide_eq_true_2 by exact Hlen. reflexivity.
  - rewrite bool_decide_eq_false_2 by lia. reflexivity.
  - rewrite bool_decide_eq_false_2 by lia. reflexivity.
  - rewrite bool_decide_eq_true_2 by lia. reflexivity.
Qed.

(** ** Rows without missing cells *)

Lemma foldl_num_add_complete (row : list num) (acc : Q) :
  complete_binary row = true ->
  exists s, foldl num_add (Fin acc) row = Fin s /\
            s == acc + inject_Z (Z.of_nat (length (List.filter is_correct row))).
Proof.
  revert acc. induction row as [|x row IH]; intros acc Hc; simpl.
  - exists acc. split; [reflexivity|].
    symmetry. apply Qplus_0_r.
  - simpl in Hc. apply andb_true_iff in Hc as [Hx Hrow].
    destruct x as [| | |q|]; try discriminate. simpl num_add.
    destruct (IH (acc + q) Hrow) as (s & Hs & Heq).
    exists s. split; [exact Hs|]. rewrite Heq.
    unfold is_correct at 2. simpl num_same.
    unfold is_correct, is_incorrect in Hx. simpl in Hx.
    destruct (Qeq_bool q 1) eqn:E1.
    + apply Qeq_bool_iff in E1. simpl length.
      rewrite Nat2Z.inj_succ, <- Z.add_1_r, inject_Z_plus. rewrite E1.
      change (inject_Z 1) with 1. lra.
    + simpl in Hx. apply Qeq_bool_iff in Hx. rewrite Hx. lra.
Qed.

Lemma filter_complete (row : list num) :
  complete_binary row = true ->
  List.filter (fun x => negb (is_na x)) row = row.
Proof.
  induction row as [|x row IH]; intros Hc; simpl; [reflexivity|].
  simpl in Hc. apply andb_true_iff in Hc as [Hx Hrow].
  destruct x; try discriminate. simpl. rewrite IH by exact Hrow. reflexivity.
Qed.

Lemma filter_length_all {A} (f : A -> bool) (l : list A) :
  length (List.filter f l) = length l -> forallb f l = true.
Proof.
  induction l as [|x l IH]; simpl; [reflexivity|].
  pose proof (filter_length_le f l) as Hle.
  destruct (f x); simpl; intros Hlen; [apply IH; lia | lia].
Qed.

(** On a matrix without missing cells, a kept row has a correct and an
    incorrect response. *)
Lemma kept_complete_row_mixed (nc : nat) (row : list num) :
  length row = nc -> complete_binary row = true ->
  strictly_between nc row = true ->
  existsb is_correct row = true /\ existsb is_incorrect row = true.
Proof.
  intros Hlen Hc Hkept. unfold strictly_between, exact_sum in Hkept.
  rewrite (filter_complete row Hc) in Hkept.
  destruct (foldl_num_add_complete row 0 Hc) as (s & Hs & Heq).
  rewrite Hs in Hkept. apply andb_true_iff in Hkept as [Hpos Hlt].
  apply Qltb_lt in Hpos, Hlt. rewrite Heq in Hpos, Hlt.
  rewrite Qplus_0_l in Hpos, Hlt.
  change 0 with (inject_Z 0) in Hpos. rewrite <- Zlt_Qlt in Hpos, Hlt.
  split.
  - destruct (existsb is_correct row) eqn:E; [reflexivity|]. exfalso.
    assert (Hnil : List.filter is_correct row = []).
    { clear -E. induction row as [|x row IH]; simpl in *; [reflexivity|].
      apply orb_false_iff in E as [-> E]. apply IH, E. }
    rewrite Hnil in Hpos. simpl in Hpos. lia.
  - destruct (existsb is_incorrect row) eqn:E; [reflexivity|]. exfalso.
    assert (Hall : forallb is_correct row = true).
    { clear -E Hc. induction row as [|x row IH]; simpl in *; [reflexivity|].
      apply orb_false_iff in E as [Ex E]. apply andb_true_iff in Hc as [Hx Hc].
      rewrite Ex, orb_false_r in Hx. rewrite Hx. apply IH; assumption. }
    assert (Hfull : List.filter is_correct row = row).
    { clear -Hall. induction row as [|x row IH]; simpl in *; [reflexivity|].
      apply andb_true_iff in Hall as [-> Hall]. rewrite IH by exact Hall. reflexivity. }
    rewrite Hfull in Hlt. lia.
Qed.

(** On a table without missing cells, whose rows have one cell per item,
    every row of the cleaned matrix has a correct and an incorrect
    response. *)
Lemma validate_complete_rows_mixed `{Env} (path : string) (resp : response_matrix)
    (w w' : world) (dl : data_list) :
  read_csv path = Ok resp ->
  Forall (fun row => length row = ncol resp /\ complete_binary row = true)
         (cells resp) ->
  validate_and_clean_data (Some path) w = (Ok dl, w') ->
  Forall (fun row => existsb is_correct row = true /\
                     existsb is_incorrect row = true)
         (cells (resp_clean dl)).
Proof.
  intros Hread Hrows Hv.
  assert (Hbin : forallb in_binary (as_vector resp) = true).
  { unfold as_vector. rewrite forallb_concat. apply forallb_forall.
    intros row Hrow. apply list_elem_of_In in Hrow.
    rewrite Forall_forall in Hrows. destruct (Hrows row Hrow) as [_ Hc].
    apply forallb_forall. intros x Hx. unfold complete_binary in Hc.
    rewrite forallb_forall in Hc. specialize (Hc x Hx).
    destruct x as [| | |q|]; try discriminate.
    unfold is_correct, is_incorrect in Hc. simpl in *.
    rewrite orb_comm. exact Hc. }
  rewrite (validate_binary path resp w Hread Hbin) in Hv.
  destruct (bool_decide _); [discriminate|]. injection Hv as <- _. simpl.
  apply Forall_forall. intros row Hrow.
  apply list_elem_of_In, filter_In in Hrow as [Hin Hkept].
  rewrite Forall_forall in Hrows.
  destruct (Hrows row (proj2 (list_elem_of_In _ _) Hin)) as [Hlen Hc].
  exact (kept_complete_row_mixed _ row Hlen Hc Hkept).
Qed.

(** ** The item-information table of the service *)

Lemma data_frame_same_length (th v : list num) (id : string) (n : nat) :
  length th = n -> length v = n -> n <> 0%nat ->
  data_frame th v id =
  Ok (map (fun k => {| row_theta := nth k th NA; row_value := nth k v NA;
                       row_item_id := id |}) (seq 0 n)).
Proof.
  intros Hth Hv Hn. unfold data_frame. rewrite Hth, Hv, Nat.max_id.
  rewrite bool_decide_eq_false_2 by lia.
  rewrite bool_decide_eq_true_2 by (rewrite Nat.Div0.mod_same; lia).
  f_equal. apply map_ext_in. intros k Hk. apply in_seq in Hk.
  rewrite Nat.mod_small by lia. reflexivity.
Qed.

Section ServiceFacts.
Context `{Env}.

(** An item whose extraction or information function raises gets the curve
    of missing values, as long as the grid. *)
Lemma iif_item_failure (model : FittedModel) (i : nat) :
  (exists e, extract_item model (num_of_nat i) = Err e) \/
  (exists item e, extract_item model (num_of_nat i) = Ok item /\
                  iteminfo item = Err e) ->
  iif_item model i = missing_curve i /\
  length (iif_item model i) = 101%nat /\
  Forall (fun row => row_value row = NA /\ row_item_id row = item_name i)
         (iif_item model i).
Proof.
  intros Hfail.
  assert (Hcurve : iif_item model i = missing_curve i).
  { unfold iif_item. destruct Hfail as [[e He] | (item & e & Hi & He)].
    - rewrite He. reflexivity.
    - rewrite Hi. simpl. rewrite He. reflexivity. }
  rewrite Hcurve. split; [reflexivity|]. split.
  - unfold missing_curve, round_all. rewrite !length_map. reflexivity.
  - unfold missing_curve. apply Forall_fmap, Forall_forall.
    intros t _. split; reflexivity.
Qed.

(** An item whose information function returns as many values as the grid
    has points gets them, rounded, whatever happens to the other items. *)
Lemma iif_item_success (model : FittedModel) (i : nat) (item : item_object)
    (info : list num) :
  extract_item model (num_of_nat i) = Ok item -> iteminfo item = Ok info ->
  length info = 101%nat ->
  iif_item model i =
  map (fun k => {| row_theta := nth k (round_all theta 6) NA;
                   row_value := nth k (round_all info 8) NA;
                   row_item_id := item_name i |}) (seq 0 101).
Proof.
  intros Hi Hinfo Hlen. unfold iif_item. rewrite Hi.
  unfold result_bind at 1. rewrite Hinfo. unfold result_bind, result_catch.
  rewrite (data_frame_same_length _ _ _ 101%nat); [reflexivity | | | lia].
  - unfold round_all. rewrite length_map. reflexivity.
  - unfold round_all. rewrite length_map. exact Hlen.
Qed.

End ServiceFacts.

Section EndpointFacts.
Context `{Env}.



(** The /iif handler on a request whose model could be loaded: one curve
    per item, each computed from that item alone, under status success. *)
Lemma iif_success (data_path : option string) (w w' : world)
    (data_list : data_list) (fit_result : fit_result) :
  load_model data_path w = (Ok (data_list, fit_result), w') ->
  iif data_path w =
  (Ok (Success (IifAll (concat (map (iif_item (model fit_result))
                                    (r_colon_1 (ncol (resp_clean data_list))))))),
   w').
Proof. intros Hl. unfold iif, tryCatch, bind. rewrite Hl. reflexivity. Qed.

End EndpointFacts.

Section StandaloneFilterFacts.
Context `{Env}.




End StandaloneFilterFacts.


(** ** Examples *)

(** C1, counterexample.  A converged 3PL model whose only item has a
    discrimination of exactly 0.01 is returned as the 3PL result, although
    0.01 is not in (0.01, 10]. *)
Lemma fit_accepts_discrimination_at_lower_bound :
  let m := sample_model true rows_at_bound 0 in
  (fit_irt_model (H := env_at_bound) table_mixed fresh).1
    = Ok {| model := m; type := "3PL" |} /\
  @mirt_engine env_at_bound table_mixed "3PL" = Ok m /\
  converged m = true /\
  ~ items_satisfy plausible_as_stated m.
Proof.
  split; [reflexivity|]. split; [reflexivity|]. split; [reflexivity|].
  intros (_ & _ & _ & HF). apply Forall_cons in HF as [Hrow _].
  destruct Hrow as (qa & qb & qg & Ha & _ & _ & Hlt & _).
  injection Ha as <-. exact (Qlt_irrefl _ Hlt).
Qed.

(** A converged 3PL model with a missing discrimination and no extreme item
    makes the condition of the [if] missing: the fit raises. *)
Lemma fit_raises_on_missing_coefficient :
  (fit_irt_model
     (H := sample_env (Ok (sample_model true [[NA; Fin 0; Fin 0; Fin 1]] 0))
                      (Ok (sample_model true rows_plain 0)) table_mixed)
     table_mixed fresh).1
  = Err {| message := "missing value where TRUE/FALSE needed" |}.
Proof. reflexivity. Qed.

(** C2, the failing input.  Ten rows with two correct responses and a
    missing cell pass validation and are all kept: no row of the cleaned
    matrix has an incorrect response. *)
Theorem all_correct_rows_with_missing_cell_kept :
  exists dl,
    validate_and_clean_data (H := env_missing) (Some "data.csv") fresh
      = (Ok dl, fresh) /\
    cells (resp_clean dl) = replicate 10 [Fin 1; Fin 1; NA] /\
    forallb (fun row => negb (existsb is_incorrect row)) (cells (resp_clean dl))
      = true.
Proof.
  eexists. split; [vm_compute; reflexivity|]. split; reflexivity.
Qed.

(** C3, the failing input.  With a model of three items whose third
    information function raises, the standalone analysis succeeds but its
    [iif] list has no entry for item 3, where the /iif handler of the
    service returns the curve of missing values for it. *)
Theorem standalone_omits_failed_item_curve :
  (exists r w',
     Standalone.perform_irt_analysis (H := env_broken_item) "data.csv" fresh
       = (Ok r, w') /\
     res_items r = 3%nat /\
     map fst (res_icc r) = ["item_1"; "item_2"; "item_3"] /\
     map fst (res_iif r) = ["item_1"; "item_2"] /\
     named_list_get (res_iif r) "item_3" = None) /\
  (iif (H := env_broken_item) (Some "data.csv") fresh).1
    = Ok (Success (IifAll (iif_item (H := env_broken_item) first_entry.(model) 1
                           ++ iif_item (H := env_broken_item) first_entry.(model) 2
                           ++ missing_curve (H := env_broken_item) 3))).
Proof.
  split.
  - eexists. eexists. split; [vm_compute; reflexivity|].
    repeat split; reflexivity.
  - vm_compute. reflexivity.
Qed.


(** A [NaN] cell fails the schema check of the service, but the message
    does not list it: [sort] drops it with the missing values. *)
Lemma nan_cell_rejected_but_not_listed :
  NaN ∈ as_vector table_with_nan /\ in_binary NaN = false /\
  validate_and_clean_data (H := env_nan) (Some "data.csv") fresh
    = (Err {| message := "errorResponses must be 0/1. Found: 0, 1" |},
       with_status 400 fresh).
Proof.
  split; [right; right; left|]. split; reflexivity.
Qed.

(** ** The theorems at concrete inputs *)

(** C1 at a concrete input: the model of three plausible items. *)
Lemma fit_rich_iff_within_bounds_witness :
  (fit_irt_model (H := env_broken_item) table_mixed fresh).1 = Ok first_entry
  <-> rich_accepted (H := env_broken_item) table_mixed (model first_entry).
Proof.
  exact (proj1 (fit_rich_iff_within_bounds (H := env_broken_item)
                  table_mixed fresh) (model first_entry)).
Defined.

(** C4 at a concrete input: a guessing of 0.7 sends the fit to the 2PL
    model, returned although it did not converge. *)
Lemma simple_fit_accepted_unchecked_witness :
  falls_back (H := env_guessing) table_mixed /\
  (fit_irt_model (H := env_guessing) table_mixed fresh).1
    = Ok {| model := sample_model false rows_plain 0; type := "2PL" |}.
Proof.
  assert (Hfb : falls_back (H := env_guessing) table_mixed).
  { right. do 3 eexists. repeat split; reflexivity. }
  split; [exact Hfb|].
  apply (proj1 (simple_fit_accepted_unchecked (H := env_guessing)
                  table_mixed fresh Hfb)).
  reflexivity.
Defined.

(** C5 at a concrete input: ten valid rows among twelve. *)
Lemma validate_keeps_rows_strictly_between_witness :
  @read_csv env_ten "data.csv" = Ok table_ten /\
  forallb in_binary (as_vector table_ten) = true /\
  validate_and_clean_data (H := env_ten) (Some "data.csv") fresh
    = (Ok {| resp_clean := {| ncol := 2; cells := replicate 10 [Fin 1; Fin 0] |};
             original_resp := table_ten |}, fresh).
Proof.
  split; [reflexivity|]. split; [reflexivity|].
  apply (validate_keeps_rows_strictly_between (H := env_ten)
           "data.csv" table_ten fresh eq_refl eq_refl).
  reflexivity.
Defined.

(** C6 at a concrete input: a second call for [data.csv] with another
    matrix, after a call for another key. *)
Lemma get_or_fit_model_returns_stored_witness :
  get_or_fit_model (H := env_broken_item) "data.csv" table_mixed fresh
    = (Ok first_entry, after_first_fit) /\
  let w2 := after_calls (H := env_broken_item)
              [("other.csv", table_ten)] after_first_fit in
  get_or_fit_model (H := env_broken_item) "data.csv" table_nine w2
    = (Ok first_entry, w2).
Proof.
  assert (Hfirst : get_or_fit_model (H := env_broken_item) "data.csv"
                     table_mixed fresh = (Ok first_entry, after_first_fit))
    by (vm_compute; reflexivity).
  split; [exact Hfirst|].
  exact (get_or_fit_model_returns_stored (H := env_broken_item) "data.csv"
           table_mixed fresh after_first_fit first_entry Hfirst
           [("other.csv", table_ten)] table_nine).
Defined.

(** C7 at a concrete input: an engine that fails both requests. *)
Lemma failed_fit_not_cached_witness :
  let w1 := record_calls [(table_mixed, "3PL"); (table_mixed, "2PL")] fresh in
  "data.csv" <> "" /\
  irt_model_cache fresh !! "data.csv" = None /\
  fit_irt_model (H := env_failing) table_mixed fresh
    = (Err {| message := "2PL failed" |}, w1) /\
  get_or_fit_model (H := env_failing) "data.csv" table_mixed fresh
    = (Err {| message := "2PL failed" |}, w1) /\
  irt_model_cache w1 !! "data.csv" = None.
Proof.
  intros w1.
  assert (Hne : "data.csv" <> "") by discriminate.
  assert (Hnone : irt_model_cache fresh !! "data.csv" = None) by reflexivity.
  assert (Hfit : fit_irt_model (H := env_failing) table_mixed fresh
                 = (Err {| message := "2PL failed" |}, w1)) by reflexivity.
  split; [exact Hne|]. split; [exact Hnone|]. split; [exact Hfit|].
  destruct (proj2 (proj2 (failed_fit_not_cached (H := env_failing) "data.csv"
                            table_mixed fresh)) _ _ Hne Hnone Hfit)
    as (Hcall & Hkey & _).
  split; assumption.
Defined.


(** C9 at a concrete input: a one-row table with discrimination 5.0. *)
Lemma clean_parameters_discrimination_steps_witness :
  [row_with_discrimination (Fin 5)] !! 0%nat
    = Some (row_with_discrimination (Fin 5)) /\
  exists r', clean_parameters [row_with_discrimination (Fin 5)] "2PL" !! 0%nat
             = Some r' /\ discrimination r' = Fin 4.
Proof.
  split; [reflexivity|].
  destruct (clean_parameters_discrimination_steps
              [row_with_discrimination (Fin 5)] "2PL" 0
              (row_with_discrimination (Fin 5)) eq_refl)
    as (r' & Hr' & _ & H5 & _).
  exists r'. split; [exact Hr'|]. apply (H5 5); reflexivity.
Defined.

(** C10 at a concrete input: a table with missing and infinite
    coefficients. *)
Lemma extracted_cleaned_rows_in_range_witness :
  Forall (fun r => exists a b, discrimination r = Fin a /\ (1#10) <= a /\ a <= 4 /\
                               difficulty r = Fin b /\ -4 <= b /\ b <= 4)
         (clean_parameters
            (extract_item_params (H := env_at_bound) table_wild None "3PL") "3PL").
Proof.
  apply Forall_forall.
  exact (proj2 (proj2 (extracted_cleaned_rows_in_range (H := env_at_bound)
                         table_wild None "3PL"))).
Defined.

(** * Further properties of the code *)

(** ** The cleaning pass *)

Lemma discrimination_steps_keep (r : item_row) :
  let r' := floor_discrimination (cap_discrimination (fix_negative_discrimination r)) in
  item_id r' = item_id r /\ guessing r' = guessing r /\
  se_discrimination r' = se_discrimination r /\ se_difficulty r' = se_difficulty r /\
  se_guessing r' = se_guessing r /\ model_type r' = model_type r.
Proof.
  assert (H1 : forall r, let r' := fix_negative_discrimination r in
    item_id r' = item_id r /\ guessing r' = guessing r /\
    se_discrimination r' = se_discrimination r /\ se_difficulty r' = se_difficulty r /\
    se_guessing r' = se_guessing r /\ model_type r' = model_type r).
  { intros r0. unfold fix_negative_discrimination.
    destruct (below _ _); repeat split; reflexivity. }
  assert (H2 : forall r, let r' := cap_discrimination r in
    item_id r' = item_id r /\ guessing r' = guessing r /\
    se_discrimination r' = se_discrimination r /\ se_difficulty r' = se_difficulty r /\
    se_guessing r' = se_guessing r /\ model_type r' = model_type r).
  { intros r0. unfold cap_discrimination.
    destruct (above _ _); repeat split; reflexivity. }
  assert (H3 : forall r, let r' := floor_discrimination r in
    item_id r' = item_id r /\ guessing r' = guessing r /\
    se_discrimination r' = se_discrimination r /\ se_difficulty r' = se_difficulty r /\
    se_guessing r' = se_guessing r /\ model_type r' = model_type r).
  { intros r0. unfold floor_discrimination.
    destruct (below _ _); repeat split; reflexivity. }
  cbv zeta in *.
  destruct (H1 r) as (? & ? & ? & ? & ? & ?).
  destruct (H2 (fix_negative_discrimination r)) as (? & ? & ? & ? & ? & ?).
  destruct (H3 (cap_discrimination (fix_negative_discrimination r)))
    as (? & ? & ? & ? & ? & ?).
  repeat split; congruence.
Qed.

Lemma difficulty_steps_keep (r : item_row) :
  let r' := cap_difficulty (floor_difficulty r) in
  item_id r' = item_id r /\ guessing r' = guessing r /\
  se_discrimination r' = se_discrimination r /\ se_difficulty r' = se_difficulty r /\
  se_guessing r' = se_guessing r /\ model_type r' = model_type r.
Proof.
  cbv zeta. unfold cap_difficulty, floor_difficulty.
  destruct (below (difficulty r) (Fin (-4))); simpl;
    try match goal with |- context [above ?x ?y] => destruct (above x y) end;
    repeat split; reflexivity.
Qed.

Lemma guessing_steps (r : item_row) :
  let r' := cap_guessing (floor_guessing r) in
  item_id r' = item_id r /\ guessing r' = clean_guessing (guessing r) /\
  se_discrimination r' = se_discrimination r /\ se_difficulty r' = se_difficulty r /\
  se_guessing r' = se_guessing r /\ model_type r' = model_type r.
Proof.
  cbv zeta. unfold cap_guessing, floor_guessing, clean_guessing.
  destruct (below (guessing r) (Fin 0)); simpl;
    try match goal with |- context [above ?x ?y] => destruct (above x y) end;
    repeat split; reflexivity.
Qed.

Lemma item_row_eta (r : item_row) :
  r = {| item_id := item_id r; discrimination := discrimination r;
         difficulty := difficulty r; guessing := guessing r;
         se_discrimination := se_discrimination r;
         se_difficulty := se_difficulty r; se_guessing := se_guessing r;
         model_type := model_type r |}.
Proof. destruct r; reflexivity. Qed.

(** The loop body, field by field. *)
Lemma clean_item_fields (mt : string) (r : item_row) :
  clean_item mt r =
  {| item_id := item_id r;
     discrimination := clean_discrimination (discrimination r);
     difficulty := clean_difficulty (difficulty r);
     guessing := if String.eqb mt "3PL" then clean_guessing (guessing r)
                 else guessing r;
     se_discrimination := se_discrimination r;
     se_difficulty := se_difficulty r;
     se_guessing := se_guessing r;
     model_type := model_type r |}.
Proof.
  rewrite (item_row_eta (clean_item mt r)).
  rewrite clean_item_discrimination, clean_item_difficulty.
  unfold clean_item.
  set (r1 := floor_discrimination (cap_discrimination (fix_negative_discrimination r))).
  destruct (discrimination_steps_keep r) as (E1 & E2 & E3 & E4 & E5 & E6).
  fold r1 in E1, E2, E3, E4, E5, E6.
  destruct (difficulty_steps_keep r1) as (F1 & F2 & F3 & F4 & F5 & F6).
  destruct (guessing_steps (cap_difficulty (floor_difficulty r1)))
    as (G1 & G2 & G3 & G4 & G5 & G6).
  cbv zeta in *.
  destruct (String.eqb mt "3PL"); f_equal; congruence.
Qed.

(** ** The clamps on single values *)

Lemma clean_guessing_range (g : num) :
  is_na g = false ->
  exists q, clean_guessing g = Fin q /\ 0 <= q /\ q <= (1#2).
Proof.
  intros Hg. destruct g as [| | |q|]; try discriminate.
  - exists 0. vm_compute. repeat split; discriminate.
  - unfold clean_guessing. rewrite below_Fin.
    destruct (Qltb q 0) eqn:E0; cbv zeta; rewrite above_Fin.
    + exists 0. split; [reflexivity | split; [apply Qle_refl | discriminate]].
    + destruct (Qltb (1#2) q) eqn:E1.
      * exists (1#2). split; [reflexivity | split; [discriminate | apply Qle_refl]].
      * exists q. apply Qltb_ge in E0, E1. auto.
  - exists (1#2). vm_compute. repeat split; discriminate.
Qed.

Lemma clean_discrimination_within (x : num) :
  missing_or_within (1#10) 4 x -> clean_discrimination x = x.
Proof.
  intros [Hna | (q & -> & Hlo & Hhi)];
    [destruct x; try discriminate; reflexivity|].
  unfold clean_discrimination. rewrite below_Fin.
  assert (E0 : Qltb q 0 = false) by (apply Qltb_ge; lra).
  rewrite E0. cbv zeta. rewrite above_Fin.
  assert (E4 : Qltb 4 q = false) by (apply Qltb_ge; lra).
  rewrite E4, below_Fin.
  assert (E1 : Qltb q (1#10) = false) by (apply Qltb_ge; lra).
  rewrite E1. reflexivity.
Qed.

Lemma clean_difficulty_within (x : num) :
  missing_or_within (-4) 4 x -> clean_difficulty x = x.
Proof.
  intros [Hna | (q & -> & Hlo & Hhi)];
    [destruct x; try discriminate; reflexivity|].
  unfold clean_difficulty. rewrite below_Fin.
  assert (E0 : Qltb q (-4) = false) by (apply Qltb_ge; lra).
  rewrite E0. cbv zeta. rewrite above_Fin.
  assert (E4 : Qltb 4 q = false) by (apply Qltb_ge; lra).
  rewrite E4. reflexivity.
Qed.

Lemma clean_guessing_within (x : num) :
  missing_or_within 0 (1#2) x -> clean_guessing x = x.
Proof.
  intros [Hna | (q & -> & Hlo & Hhi)];
    [destruct x; try discriminate; reflexivity|].
  unfold clean_guessing. rewrite below_Fin.
  assert (E0 : Qltb q 0 = false) by (apply Qltb_ge; lra).
  rewrite E0. cbv zeta. rewrite above_Fin.
  assert (E4 : Qltb (1#2) q = false) by (apply Qltb_ge; lra).
  rewrite E4. reflexivity.
Qed.

Lemma missing_or_within_cases (lo hi : Q) (f : num -> num) (x : num) :
  f NA = NA -> f NaN = NaN ->
  (is_na x = false -> exists q, f x = Fin q /\ lo <= q /\ q <= hi) ->
  missing_or_within lo hi (f x) /\ is_na (f x) = is_na x.
Proof.
  intros HNA HNaN Hrange. destruct (is_na x) eqn:E.
  - destruct x; try discriminate; rewrite ?HNA, ?HNaN;
      (split; [left|]; reflexivity).
  - destruct (Hrange eq_refl) as (q & -> & Hlo & Hhi).
    split; [right; exists q; auto | reflexivity].
Qed.

(** X1.  After the cleaning pass every discrimination is missing or in
    [0.1, 4], every difficulty is missing or in [-4, 4] and, for the model
    type "3PL", every guessing is missing or in [0, 0.5]; a value is missing
    after the pass exactly when it was missing before, so the pass neither
    invents nor repairs missing values. *)
Theorem clean_parameters_rows_within_bounds
    (item_params : list item_row) (mt : string) :
  Forall (row_within_bounds mt) (clean_parameters item_params mt) /\
  Forall2 (fun r r' => is_na (discrimination r') = is_na (discrimination r) /\
                       is_na (difficulty r') = is_na (difficulty r) /\
                       is_na (guessing r') = is_na (guessing r))
          item_params (clean_parameters item_params mt).
Proof.
  rewrite clean_parameters_map. split.
  - apply Forall_fmap, Forall_forall. intros r _.
    unfold compose, row_within_bounds. rewrite clean_item_fields. simpl.
    split; [|split].
    + apply (missing_or_within_cases _ _ clean_discrimination);
        [reflexivity | reflexivity | apply clean_discrimination_range].
    + apply (missing_or_within_cases _ _ clean_difficulty);
        [reflexivity | reflexivity | apply clean_difficulty_range].
    + intros ->. simpl.
      apply (missing_or_within_cases _ _ clean_guessing);
        [reflexivity | reflexivity | apply clean_guessing_range].
  - apply Forall2_fmap_r, Forall_Forall2_diag, Forall_forall. intros r _.
    unfold compose. rewrite (clean_item_fields mt r). simpl. split; [|split].
    + apply (missing_or_within_cases (1#10) 4 clean_discrimination);
        [reflexivity | reflexivity | apply clean_discrimination_range].
    + apply (missing_or_within_cases (-4) 4 clean_difficulty);
        [reflexivity | reflexivity | apply clean_difficulty_range].
    + destruct (String.eqb mt "3PL"); [|reflexivity].
      apply (missing_or_within_cases 0 (1#2) clean_guessing);
        [reflexivity | reflexivity | apply clean_guessing_range].
Qed.

(** X2.  The cleaning pass keeps the number and the order of the rows and
    never changes an item id, a standard error or the model-type column;
    for a model type other than "3PL" it leaves the guessing column as it
    is, whatever it holds. *)
Theorem clean_parameters_keeps_other_columns
    (item_params : list item_row) (mt : string) :
  length (clean_parameters item_params mt) = length item_params /\
  map item_id (clean_parameters item_params mt) = map item_id item_params /\
  map se_discrimination (clean_parameters item_params mt)
    = map se_discrimination item_params /\
  map se_difficulty (clean_parameters item_params mt)
    = map se_difficulty item_params /\
  map se_guessing (clean_parameters item_params mt) = map se_guessing item_params /\
  map model_type (clean_parameters item_params mt) = map model_type item_params /\
  (mt <> "3PL" ->
   map guessing (clean_parameters item_params mt) = map guessing item_params).
Proof.
  rewrite clean_parameters_map, length_map, !map_map.
  repeat split; try (apply map_ext; intros r; rewrite clean_item_fields; reflexivity).
  intros Hmt. apply map_ext. intros r. rewrite clean_item_fields. simpl.
  apply String.eqb_neq in Hmt. rewrite Hmt. reflexivity.
Qed.

(** X3.  A table all of whose rows are already within the bounds (or
    missing) is returned unchanged: the pass alters only offending values. *)
Theorem clean_parameters_fixes_rows_within_bounds
    (item_params : list item_row) (mt : string) :
  Forall (row_within_bounds mt) item_params ->
  clean_parameters item_params mt = item_params.
Proof.
  intros HF. rewrite clean_parameters_map.
  induction HF as [|r tbl (Ha & Hb & Hg) _ IH]; [reflexivity|].
  simpl. rewrite IH. f_equal.
  rewrite clean_item_fields, (clean_discrimination_within _ Ha),
    (clean_difficulty_within _ Hb).
  destruct (String.eqb mt "3PL") eqn:E.
  - apply String.eqb_eq in E. rewrite (clean_guessing_within _ (Hg E)).
    symmetry. apply item_row_eta.
  - symmetry. apply item_row_eta.
Qed.

(** X4.  The cleaning pass is idempotent: cleaning a cleaned table changes
    nothing, for every table and every model type. *)
Theorem clean_parameters_idempotent (item_params : list item_row) (mt : string) :
  clean_parameters (clean_parameters item_params mt) mt
  = clean_parameters item_params mt.
Proof.
  rewrite !clean_parameters_map, map_map. apply map_ext. intros r.
  rewrite (clean_item_fields mt (clean_item mt r)).
  rewrite (clean_item_fields mt r). simpl.
  assert (Ha : clean_discrimination (clean_discrimination (discrimination r))
               = clean_discrimination (discrimination r)).
  { apply clean_discrimination_within.
    apply (missing_or_within_cases _ _ clean_discrimination);
      [reflexivity | reflexivity | apply clean_discrimination_range]. }
  assert (Hb : clean_difficulty (clean_difficulty (difficulty r))
               = clean_difficulty (difficulty r)).
  { apply clean_difficulty_within.
    apply (missing_or_within_cases _ _ clean_difficulty);
      [reflexivity | reflexivity | apply clean_difficulty_range]. }
  assert (Hg : clean_guessing (clean_guessing (guessing r))
               = clean_guessing (guessing r)).
  { apply clean_guessing_within.
    apply (missing_or_within_cases _ _ clean_guessing);
      [reflexivity | reflexivity | apply clean_guessing_range]. }
  rewrite Ha, Hb. destruct (String.eqb mt "3PL"); [rewrite Hg|]; reflexivity.
Qed.

(** ** Item ids *)

Lemma item_name_inj (i j : nat) : item_name i = item_name j -> i = j.
Proof.
  unfold item_name. intros Heq.
  apply (String.app_inj "item_") in Heq. exact (pretty_nat_inj _ _ Heq).
Qed.

Section ExtractionExtras.
Context `{Env}.

Lemma extract_item_params_lookup (t : named_matrix) (se : option named_matrix)
    (mt : string) (k : nat) :
  extract_item_params t se mt !! k =
  extract_item_row t se mt (S k) <$> mrows t !! k.
Proof. unfold extract_item_params. rewrite list_lookup_imap. reflexivity. Qed.

Lemma extract_item_params_elem (t : named_matrix) (se : option named_matrix)
    (mt : string) (r : item_row) :
  r ∈ extract_item_params t se mt ->
  exists k row, mrows t !! k = Some row /\ r = extract_item_row t se mt (S k) row.
Proof.
  unfold extract_item_params. intros Hr.
  apply elem_of_lookup_imap in Hr as (k & row & -> & Hrow). eauto.
Qed.

Lemma extract_item_params_item_ids (t : named_matrix) (se : option named_matrix)
    (mt : string) :
  map item_id (extract_item_params t se mt)
  = map item_name (seq 1 (length (mrows t))).
Proof.
  apply list_eq. intros k.
  rewrite !list_lookup_fmap, extract_item_params_lookup.
  destruct (mrows t !! k) as [row|] eqn:E; simpl.
  - rewrite lookup_seq_lt by (apply lookup_lt_Some in E; exact E). reflexivity.
  - rewrite lookup_seq_ge by (apply lookup_ge_None in E; exact E). reflexivity.
Qed.

(** X5.  Extraction yields one row per row of the coefficient table, in
    order; the ids are item_1, item_2, ... and so pairwise distinct, and the
    model-type column repeats the argument. *)
Theorem extract_item_params_ids (t : named_matrix) (se : option named_matrix)
    (mt : string) :
  map item_id (extract_item_params t se mt)
    = map item_name (seq 1 (length (mrows t))) /\
  NoDup (map item_id (extract_item_params t se mt)) /\
  Forall (fun r => model_type r = mt) (extract_item_params t se mt).
Proof.
  split; [apply extract_item_params_item_ids|]. split.
  - rewrite extract_item_params_item_ids. apply NoDup_fmap_2; [|apply NoDup_seq].
    intros i j. apply item_name_inj.
  - apply Forall_forall. intros r Hr.
    apply extract_item_params_elem in Hr as (k & row & _ & ->). reflexivity.
Qed.

(** X6.  No extracted row has a missing standard error: an unavailable
    standard error of the discrimination or of the difficulty becomes 0.
    Without a standard-error table, and for the items beyond its last row,
    the two are exactly 0 and the standard error of the guessing is the
    rounded 0. *)
Theorem extract_item_params_standard_errors (t : named_matrix)
    (se : option named_matrix) (mt : string) :
  Forall (fun r => is_na (se_discrimination r) = false /\
                   is_na (se_difficulty r) = false /\
                   is_na (se_guessing r) = false)
         (extract_item_params t se mt) /\
  (forall k r, extract_item_params t se mt !! k = Some r ->
     (se = None \/ exists tbl, se = Some tbl /\ (length (mrows tbl) <= k)%nat) ->
     se_discrimination r = Fin 0 /\ se_difficulty r = Fin 0 /\
     se_guessing r = round (Fin 0) 4).
Proof.
  split.
  - apply Forall_forall. intros r Hr.
    apply extract_item_params_elem in Hr as (k & row & _ & ->).
    unfold extract_item_row. simpl.
    destruct se as [tbl|]; [|repeat split; reflexivity].
    destruct (bool_decide (S k <= length (mrows tbl))%nat);
      [|repeat split; reflexivity].
    simpl. repeat split.
    + match goal with |- context [is_na (if ?c then ?x else NA)] =>
        destruct c eqn:E; [|reflexivity] end.
      apply andb_true_iff in E as [_ E]. apply negb_true_iff in E.
      rewrite E. rewrite round_is_na. exact E.
    + match goal with |- context [is_na (if ?c then ?x else NA)] =>
        destruct c eqn:E; [|reflexivity] end.
      apply andb_true_iff in E as [_ E]. apply negb_true_iff in E.
      rewrite E. rewrite round_is_na. exact E.
    + rewrite round_is_na.
      match goal with |- context [if ?c then ?x else Fin 0] =>
        destruct c eqn:E; [|reflexivity] end.
      apply andb_true_iff in E as [_ E]. apply negb_true_iff in E. exact E.
  - intros k r Hr Hno. rewrite extract_item_params_lookup in Hr.
    destruct (mrows t !! k) as [row|]; [|discriminate]. injection Hr as <-.
    unfold extract_item_row. simpl.
    destruct Hno as [-> | (tbl & -> & Hlen)]; [repeat split; reflexivity|].
    rewrite bool_decide_eq_false_2 by lia. repeat split; reflexivity.
Qed.

(** X7.  For a model type other than "3PL", or when the coefficient table
    has no column g, the guessing of every extracted row is the rounded 0,
    whatever the table holds; for a model type other than "3PL" so is the
    standard error of the guessing. *)
Theorem extract_item_params_guessing_of_simple_model (t : named_matrix)
    (se : option named_matrix) (mt : string) :
  (mt <> "3PL" \/ has_name "g" (colnames t) = false ->
   Forall (fun r => guessing r = round (Fin 0) 4) (extract_item_params t se mt)) /\
  (mt <> "3PL" ->
   Forall (fun r => se_guessing r = round (Fin 0) 4) (extract_item_params t se mt)).
Proof.
  split.
  - intros Hno. apply Forall_forall. intros r Hr.
    apply extract_item_params_elem in Hr as (k & row & _ & ->).
    unfold extract_item_row. simpl.
    destruct Hno as [Hmt | Hg].
    + apply String.eqb_neq in Hmt. rewrite Hmt. reflexivity.
    + rewrite Hg, andb_false_r. reflexivity.
  - intros Hmt. apply String.eqb_neq in Hmt. apply Forall_forall. intros r Hr.
    apply extract_item_params_elem in Hr as (k & row & _ & ->).
    unfold extract_item_row. simpl. rewrite Hmt.
    destruct se as [tbl|]; [|reflexivity].
    destruct (bool_decide _); reflexivity.
Qed.

End ExtractionExtras.

(** ** Standard errors *)

Lemma result_all_Ok {A} (l : list (result A)) (xs : list A) :
  result_all l = Ok xs <-> l = map Ok xs.
Proof.
  revert xs. induction l as [|r l IH]; intros xs; simpl.
  - split; [intros [= <-]; reflexivity | destruct xs; [reflexivity | discriminate]].
  - destruct r as [x|e]; simpl.
    + destruct (result_all l) as [ys|e] eqn:E; simpl.
      * split.
        -- intros [= <-]. simpl. f_equal. apply IH. reflexivity.
        -- destruct xs as [|x' xs]; [discriminate|]. simpl. intros [= <- Hl].
           apply IH in Hl. injection Hl as <-. reflexivity.
      * split; [discriminate|].
        destruct xs as [|x' xs]; [discriminate|]. simpl. intros [= <- Hl].
        apply IH in Hl. discriminate.
    + split; [discriminate|]. destruct xs; discriminate.
Qed.

Lemma result_all_Err {A} (l : list (result A)) :
  (exists e, result_all l = Err e) <-> exists e, Err e ∈ l.
Proof.
  induction l as [|r l IH]; simpl.
  - split; intros [e He]; [discriminate | inversion He].
  - destruct r as [x|e]; simpl.
    + destruct (result_all l) as [ys|e'] eqn:E; simpl.
      * split; [intros [e He]; discriminate|].
        intros [e He]. apply elem_of_cons in He as [He|He]; [discriminate|].
        destruct (proj2 IH (ex_intro _ e He)) as [e' He']. discriminate.
      * split; [|eauto]. intros _.
        destruct (proj1 IH (ex_intro _ e' eq_refl)) as [e He].
        exists e. right. exact He.
    + split; [|eauto]. intros _. exists e. left.
Qed.

Lemma matrix_elt2_has_name (item : named_matrix) (name : string) :
  has_name name (colnames item) = true -> exists x, matrix_elt2 item name = Ok x.
Proof.
  unfold has_name, matrix_elt2.
  destruct (col_index name (colnames item)); [eauto | discriminate].
Qed.

Lemma matrix_elt2_no_name (item : named_matrix) (name : string) :
  has_name name (colnames item) = false ->
  matrix_elt2 item name = Err {| message := "subscript out of bounds" |}.
Proof.
  unfold has_name, matrix_elt2.
  destruct (col_index name (colnames item)); [discriminate | reflexivity].
Qed.

(** One pass of the loop on an element that exists: it raises exactly on
    an unreadable element, and otherwise yields a row of the full width. *)
Lemma se_matrix_row_spec (mt : string) (l : list (string * option named_matrix))
    (k : nat) (name : string) (item : option named_matrix) :
  l !! k = Some (name, item) ->
  if unreadable_item item
  then se_matrix_row mt l (S k) = Err {| message := "subscript out of bounds" |}
  else exists row, se_matrix_row mt l (S k) = Ok row /\ length row = se_width mt /\
         (match item with
          | Some m => (length (mrows m) < 2)%nat
          | None => True
          end -> Forall (fun x => x = NA) row).
Proof.
  intros Hk. unfold se_matrix_row, se_width.
  replace (S k - 1)%nat with k by lia. rewrite Hk.
  destruct item as [m|]; simpl.
  - destruct (bool_decide (2 <= length (mrows m))%nat) eqn:E2; simpl.
    + destruct (has_name "a" (colnames m)) eqn:Ea; simpl.
      * destruct (matrix_elt2_has_name m "a" Ea) as [a ->]. simpl.
        destruct (has_name "b" (colnames m)) eqn:Eb; simpl.
        -- destruct (matrix_elt2_has_name m "b" Eb) as [b ->]. simpl.
           destruct (String.eqb mt "3PL"); simpl.
           ++ destruct (has_name "g" (colnames m)) eqn:Eg; simpl.
              ** destruct (matrix_elt2_has_name m "g" Eg) as [g ->]. simpl.
                 destruct (has_name "u" (colnames m)) eqn:Eu; simpl.
                 --- destruct (matrix_elt2_has_name m "u" Eu) as [u ->]. simpl.
                     eexists. split; [reflexivity|]. split; [reflexivity|].
                     apply bool_decide_eq_true in E2. lia.
                 --- eexists. split; [reflexivity|]. split; [reflexivity|].
                     apply bool_decide_eq_true in E2. lia.
              ** destruct (has_name "u" (colnames m)) eqn:Eu; simpl.
                 --- destruct (matrix_elt2_has_name m "u" Eu) as [u ->]. simpl.
                     eexists. split; [reflexivity|]. split; [reflexivity|].
                     apply bool_decide_eq_true in E2. lia.
                 --- eexists. split; [reflexivity|]. split; [reflexivity|].
                     apply bool_decide_eq_true in E2. lia.
           ++ destruct (has_name "u" (colnames m)) eqn:Eu; simpl.
              ** destruct (matrix_elt2_has_name m "u" Eu) as [u ->]. simpl.
                 eexists. split; [reflexivity|]. split; [reflexivity|].
                 apply bool_decide_eq_true in E2. lia.
              ** eexists. split; [reflexivity|]. split; [reflexivity|].
                 apply bool_decide_eq_true in E2. lia.
        -- rewrite (matrix_elt2_no_name m "b" Eb). reflexivity.
      * rewrite (matrix_elt2_no_name m "a" Ea). reflexivity.
    + destruct (String.eqb mt "3PL"); eexists;
        (split; [reflexivity|]); (split; [reflexivity|]); intros _;
        repeat constructor.
  - destruct (String.eqb mt "3PL"); eexists;
      (split; [reflexivity|]); (split; [reflexivity|]); intros _;
      repeat constructor.
Qed.

Lemma result_all_Forall {A} (P : A -> Prop) (l : list (result A)) :
  Forall (fun r => exists x, r = Ok x /\ P x) l ->
  exists xs, result_all l = Ok xs /\ length xs = length l /\ Forall P xs.
Proof.
  induction 1 as [|r l (x & -> & Hx) _ (xs & Hxs & Hlen & HP)]; simpl.
  - exists []. repeat split; constructor.
  - rewrite Hxs. simpl. exists (x :: xs). repeat split.
    + simpl. rewrite Hlen. reflexivity.
    + constructor; assumption.
Qed.

Lemma result_all_is_Err {A} (l : list (result A)) (e : condition) :
  Err e ∈ l -> exists e', result_all l = Err e'.
Proof. intros He. apply result_all_Err. eauto. Qed.

(** The loop over the visited elements. *)
Lemma se_rows_spec (mt : string) (l : list (string * option named_matrix)) :
  if bool_decide (l <> [] /\ Forall (fun p => unreadable_item p.2 = false) l)
  then exists rows,
         result_all (map (se_matrix_row mt l) (r_colon_1 (length l))) = Ok rows /\
         length rows = length l /\
         Forall (fun row => length row = se_width mt) rows
  else exists e,
         result_all (map (se_matrix_row mt l) (r_colon_1 (length l))) = Err e.
Proof.
  destruct (decide (l = [])) as [->|Hne].
  { rewrite bool_decide_eq_false_2 by (intros [Hn _]; congruence).
    eexists. reflexivity. }
  assert (Hcolon : r_colon_1 (length l) = seq 1 (length l)).
  { destruct l; [congruence | reflexivity]. }
  rewrite Hcolon.
  destruct (decide (Forall (fun p => unreadable_item p.2 = false) l)) as [HF|HF].
  - rewrite bool_decide_eq_true_2 by (split; assumption).
    destruct (result_all_Forall (fun row => length row = se_width mt)
                (map (se_matrix_row mt l) (seq 1 (length l))))
      as (rows & Hrows & Hlen & Hwidth).
    { apply Forall_fmap, Forall_forall. intros i Hi.
      apply elem_of_seq in Hi. destruct i as [|k]; [lia|].
      destruct (l !! k) as [[name item]|] eqn:Hk;
        [|apply lookup_ge_None in Hk; lia].
      pose proof (se_matrix_row_spec mt l k name item Hk) as Hrow.
      rewrite Forall_forall in HF.
      assert (Hgood : unreadable_item item = false).
      { apply (HF (name, item)). apply list_elem_of_lookup. eauto. }
      rewrite Hgood in Hrow.
      destruct Hrow as (row & Hrow & Hlenrow & _). simpl. eauto. }
    exists rows. rewrite length_map, length_seq in Hlen. auto.
  - rewrite bool_decide_eq_false_2 by (intros [_ HF']; contradiction).
    apply not_Forall_Exists in HF; [|intros p; apply _].
    apply Exists_exists in HF as ([name item] & Hin & Hbad).
    apply list_elem_of_lookup in Hin as [k Hk].
    pose proof (se_matrix_row_spec mt l k name item Hk) as Hrow.
    simpl in Hbad. destruct (unreadable_item item); [|congruence].
    eapply result_all_is_Err. apply list_elem_of_fmap.
    exists (S k). split; [symmetry; exact Hrow|].
    apply elem_of_seq. apply lookup_lt_Some in Hk. lia.
Qed.

Lemma extract_standard_errors_unfold (m : FittedModel) (mt : string) :
  extract_standard_errors m mt =
  match coef_printSE m with
  | Ok l =>
      match result_all (map (se_matrix_row mt (visited_items l))
                            (r_colon_1 (length (visited_items l)))) with
      | Ok rows => Some {| colnames := if String.eqb mt "3PL"
                                       then ["a"; "b"; "g"; "u"]
                                       else ["a"; "b"; "u"];
                           mrows := rows |}
      | Err _ => None
      end
  | Err _ => None
  end.
Proof.
  unfold extract_standard_errors, visited_items.
  destruct (coef_printSE m) as [l|e]; [|reflexivity]. simpl.
  destruct (result_all _); reflexivity.
Qed.

(** X8.  A matrix of standard errors returned by
    [extract_standard_errors] has one row per visited element of the
    coefficient list and at least one row, its columns are a, b, g, u for
    the model type "3PL" and a, b, u otherwise, and every row has that
    width. *)
Theorem extract_standard_errors_shape (m : FittedModel) (mt : string)
    (se : named_matrix) :
  extract_standard_errors m mt = Some se ->
  colnames se = (if String.eqb mt "3PL" then ["a"; "b"; "g"; "u"]
                 else ["a"; "b"; "u"]) /\
  Forall (fun row => length row = length (colnames se)) (mrows se) /\
  (0 < length (mrows se))%nat /\
  exists l, coef_printSE m = Ok l /\
            length (mrows se) = length (visited_items l).
Proof.
  rewrite extract_standard_errors_unfold.
  destruct (coef_printSE m) as [l|e]; [|discriminate].
  pose proof (se_rows_spec mt (visited_items l)) as Hspec.
  destruct (bool_decide _) eqn:Hok.
  - destruct Hspec as (rows & -> & Hlen & Hwidth). intros [= <-]. simpl.
    apply bool_decide_eq_true in Hok as [Hne _].
    split; [reflexivity|]. split.
    + eapply Forall_impl; [exact Hwidth|]. intros row ->.
      unfold se_width. destruct (String.eqb mt "3PL"); reflexivity.
    + split; [|exists l; split; [reflexivity | exact Hlen]].
      rewrite Hlen. destruct (visited_items l); [congruence | simpl; lia].
  - destruct Hspec as (e & ->). discriminate.
Qed.

(** X9.  [extract_standard_errors] returns NULL exactly when reading the
    coefficients raises, or no element is left to visit, or a visited
    element is a matrix of at least two rows without a column a or b; a
    visited element that is NULL or has fewer than two rows does not make
    it fail. *)
Theorem extract_standard_errors_null_iff (m : FittedModel) (mt : string) :
  extract_standard_errors m mt = None <->
  (exists e, coef_printSE m = Err e) \/
  exists l, coef_printSE m = Ok l /\
    (visited_items l = [] \/
     Exists (fun p => unreadable_item p.2 = true) (visited_items l)).
Proof.
  rewrite extract_standard_errors_unfold.
  destruct (coef_printSE m) as [l|e].
  - pose proof (se_rows_spec mt (visited_items l)) as Hspec.
    destruct (bool_decide _) eqn:Hok.
    + destruct Hspec as (rows & -> & _).
      apply bool_decide_eq_true in Hok as [Hne HF].
      split; [discriminate|].
      intros [[e He] | (l' & [= <-] & [Hnil | Hex])]; [discriminate | congruence |].
      apply Exists_exists in Hex as (p & Hin & Hbad).
      rewrite Forall_forall in HF.
      rewrite (HF p Hin) in Hbad. discriminate.
    + destruct Hspec as (e & ->). split; [|reflexivity]. intros _. right.
      exists l. split; [reflexivity|].
      apply bool_decide_eq_false in Hok.
      destruct (decide (visited_items l = [])) as [Hnil|Hne]; [left; exact Hnil|].
      right. destruct (decide (Forall (fun p => unreadable_item p.2 = false)
                                      (visited_items l))) as [HF|HF].
      * exfalso. apply Hok. split; assumption.
      * apply not_Forall_Exists in HF; [|intros p; apply _].
        eapply Exists_impl; [exact HF|]. intros p Hp. simpl in Hp.
        destruct (unreadable_item p.2); congruence.
  - split; [|reflexivity]. intros _. left. eauto.
Qed.

Section ItemParameterExtras.
Context `{Env}.

Lemma item_parameters_of_elem (m : FittedModel) (mt : string) (r : item_row) :
  r ∈ item_parameters_of m mt ->
  exists k row se,
    mrows (coef_items m) !! k = Some row /\
    se = match extract_standard_errors m mt with
         | Some se => se
         | None => zero_se (coef_items m) mt
         end /\
    r = clean_item mt (extract_item_row (coef_items m) (Some se) mt (S k) row).
Proof.
  unfold item_parameters_of. rewrite clean_parameters_map. intros Hr.
  apply list_elem_of_fmap in Hr as (r0 & -> & Hr0).
  apply extract_item_params_elem in Hr0 as (k & row & Hrow & ->).
  eauto 6.
Qed.

(** X10.  When the standard errors cannot be extracted the analysis goes
    on with zeros: every row of the item parameters then has the rounded 0
    as standard error of the discrimination, of the difficulty and of the
    guessing. *)
Theorem item_parameters_of_without_standard_errors (m : FittedModel) (mt : string) :
  extract_standard_errors m mt = None ->
  Forall (fun r => se_discrimination r = round (Fin 0) 4 /\
                   se_difficulty r = round (Fin 0) 4 /\
                   se_guessing r = round (Fin 0) 4)
         (item_parameters_of m mt).
Proof.
  intros Hnone. apply Forall_forall. intros r Hr.
  apply item_parameters_of_elem in Hr as (k & row & se & Hrow & -> & ->).
  rewrite Hnone, clean_item_fields. simpl.
  apply lookup_lt_Some in Hrow.
  unfold zero_se. destruct (String.eqb mt "3PL") eqn:Emt; simpl.
  - rewrite length_replicate, bool_decide_eq_true_2 by lia.
    replace (k - 0)%nat with k by lia.
    rewrite (nth_lookup_Some _ k [] [Fin 0; Fin 0; Fin 0; Fin 0]
               (lookup_replicate_2 _ _ _ Hrow)).
    repeat split; reflexivity.
  - rewrite length_replicate, bool_decide_eq_true_2 by lia.
    replace (k - 0)%nat with k by lia.
    rewrite (nth_lookup_Some _ k [] [Fin 0; Fin 0; Fin 0]
               (lookup_replicate_2 _ _ _ Hrow)).
    repeat split; reflexivity.
Qed.

(** X11.  The item parameters of a model of a type other than "3PL" report
    the rounded 0 as guessing and as its standard error for every item,
    whatever the coefficient table of the model holds; their ids are
    item_1, item_2, ... in the order of the coefficient table. *)
Theorem item_parameters_of_simple_model (m : FittedModel) (mt : string) :
  mt <> "3PL" ->
  Forall (fun r => guessing r = round (Fin 0) 4 /\ se_guessing r = round (Fin 0) 4 /\
                   model_type r = mt)
         (item_parameters_of m mt) /\
  map item_id (item_parameters_of m mt)
    = map item_name (seq 1 (length (mrows (coef_items m)))).
Proof.
  intros Hmt. split.
  - apply Forall_forall. intros r Hr.
    apply item_parameters_of_elem in Hr as (k & row & se & Hrow & _ & ->).
    rewrite clean_item_fields. simpl.
    apply String.eqb_neq in Hmt. rewrite Hmt.
    repeat split. destruct (bool_decide _); reflexivity.
  - unfold item_parameters_of. rewrite clean_parameters_map, map_map.
    rewrite <- (extract_item_params_item_ids (coef_items m)
                  (Some match extract_standard_errors m mt with
                        | Some se => se
                        | None => zero_se (coef_items m) mt
                        end) mt).
    apply map_ext. intros r. rewrite clean_item_fields. reflexivity.
Qed.

End ItemParameterExtras.

(** ** Accepted and rejected tables *)

Lemma filter_sublist {A} (f : A -> bool) (l : list A) :
  List.filter f l `sublist_of` l.
Proof.
  induction l as [|x l IH]; simpl; [constructor|].
  destruct (f x); [apply sublist_skip | apply sublist_cons]; exact IH.
Qed.

Lemma filter_present_complete (row : list num) :
  forallb in_binary row = true ->
  complete_binary (List.filter (fun x => negb (is_na x)) row) = true.
Proof.
  induction row as [|x row IH]; simpl; [reflexivity|]. intros Hb.
  apply andb_true_iff in Hb as [Hx Hrow].
  destruct x as [| | |q|]; simpl in *; try discriminate; [apply IH, Hrow|].
  rewrite (IH Hrow), andb_true_r. unfold is_correct, is_incorrect. simpl.
  rewrite orb_comm. exact Hx.
Qed.

(** A kept row needs at least two item columns. *)
Lemma strictly_between_two_columns (nc : nat) (row : list num) :
  forallb in_binary row = true -> strictly_between nc row = true -> (2 <= nc)%nat.
Proof.
  intros Hb Hkept. unfold strictly_between, exact_sum in Hkept.
  destruct (foldl_num_add_complete _ 0 (filter_present_complete row Hb))
    as (s & Hs & Heq).
  rewrite Hs in Hkept. apply andb_true_iff in Hkept as [Hpos Hlt].
  apply Qltb_lt in Hpos, Hlt. rewrite Heq, Qplus_0_l in Hpos, Hlt.
  change 0 with (inject_Z 0) in Hpos. rewrite <- Zlt_Qlt in Hpos, Hlt. lia.
Qed.

Section ValidationExtras.
Context `{Env}.

(** X12.  A table that validation accepts is returned as [original_resp]
    exactly as read, and the world is left as it was; the cleaned matrix has
    the same item columns, at least two of them, its rows are rows of the
    original in their order, at least ten of them, and all its cells are 0,
    1 or missing. *)
Theorem validate_and_clean_data_accepted (data_path : option string)
    (w w' : world) (dl : data_list) :
  validate_and_clean_data data_path w = (Ok dl, w') ->
  w' = w /\
  (exists path, data_path = Some path /\ read_csv path = Ok (original_resp dl)) /\
  ncol (resp_clean dl) = ncol (original_resp dl) /\
  cells (resp_clean dl) `sublist_of` cells (original_resp dl) /\
  (10 <= nrow (resp_clean dl))%nat /\
  (2 <= ncol (resp_clean dl))%nat /\
  forallb in_binary (as_vector (resp_clean dl)) = true.
Proof.
  destruct data_path as [path|]; [|discriminate]. intros Hv.
  destruct (read_csv path) as [resp|e] eqn:Hread;
    [|unfold validate_and_clean_data, bind, lift in Hv; rewrite Hread in Hv;
      discriminate].
  destruct (forallb in_binary (as_vector resp)) eqn:Hbin;
    [|rewrite (validate_nonbinary path resp w Hread Hbin) in Hv; discriminate].
  rewrite (validate_binary path resp w Hread Hbin) in Hv.
  destruct (bool_decide _) eqn:Hlen; [discriminate|].
  apply bool_decide_eq_false in Hlen. injection Hv as <- <-. simpl.
  set (kept := List.filter (strictly_between (ncol resp)) (cells resp)) in *.
  assert (Hkeptbin : forallb (forallb in_binary) kept = true).
  { unfold as_vector in Hbin. rewrite forallb_concat in Hbin.
    apply forallb_forall. intros row Hrow. apply filter_In in Hrow as [Hrow _].
    rewrite forallb_forall in Hbin. exact (Hbin row Hrow). }
  split; [reflexivity|]. split; [exists path; split; [reflexivity | exact Hread]|].
  split; [reflexivity|]. split; [apply filter_sublist|].
  split; [unfold nrow; simpl; fold kept; lia|]. split.
  - destruct kept as [|row rest] eqn:Ekept; [simpl in Hlen; lia|].
    assert (Hin : In row (List.filter (strictly_between (ncol resp)) (cells resp))).
    { fold kept. rewrite Ekept. left. reflexivity. }
    apply filter_In in Hin as [_ Hsb].
    simpl in Hkeptbin. apply andb_true_iff in Hkeptbin as [Hrow _].
    exact (strictly_between_two_columns _ row Hrow Hsb).
  - unfold as_vector. simpl. rewrite forallb_concat. exact Hkeptbin.
Qed.

(** X13.  Validation fails in four ways only: without a path ("data_path
    required", status 400), with the error of reading the file (status
    untouched), with the schema error (status 400) or with the
    not-enough-rows error (status 400); on an unreadable condition of an
    [if] it never fails.  In no case does it touch the cache or call the
    engine. *)
Theorem validate_and_clean_data_rejections (data_path : option string)
    (w w' : world) (e : condition) :
  validate_and_clean_data data_path w = (Err e, w') ->
  irt_model_cache w' = irt_model_cache w /\ engine_calls w' = engine_calls w /\
  ((data_path = None /\ message e = "errordata_path required" /\
    w' = with_status 400 w) \/
   exists path, data_path = Some path /\
     ((read_csv path = Err e /\ w' = w) \/
      exists resp, read_csv path = Ok resp /\ w' = with_status 400 w /\
        ((forallb in_binary (as_vector resp) = false /\
          message e = "error" +:+ found_message (unique (as_vector resp))) \/
         (forallb in_binary (as_vector resp) = true /\
          (length (List.filter (strictly_between (ncol resp)) (cells resp)) < 10)%nat /\
          message e = "errorNot enough valid response patterns after filtering")))).
Proof.
  destruct data_path as [path|].
  - intros Hv. destruct (read_csv path) as [resp|e0] eqn:Hread.
    + destruct (forallb in_binary (as_vector resp)) eqn:Hbin.
      * rewrite (validate_binary path resp w Hread Hbin) in Hv.
        destruct (bool_decide _) eqn:Hlen; [|discriminate].
        apply bool_decide_eq_true in Hlen. injection Hv as <- <-.
        split; [reflexivity|]. split; [reflexivity|]. right.
        exists path. split; [reflexivity|]. right. exists resp.
        split; [exact Hread|]. split; [reflexivity|]. right. auto.
      * rewrite (validate_nonbinary path resp w Hread Hbin) in Hv.
        injection Hv as <- <-.
        split; [reflexivity|]. split; [reflexivity|]. right.
        exists path. split; [reflexivity|]. right. exists resp.
        split; [exact Hread|]. split; [reflexivity|]. left. auto.
    + unfold validate_and_clean_data, bind, lift in Hv. rewrite Hread in Hv.
      injection Hv as <- <-.
      split; [reflexivity|]. split; [reflexivity|]. right.
      exists path. split; [reflexivity|]. left. split; [exact Hread | reflexivity].
  - intros [= <- <-]. split; [reflexivity|]. split; [reflexivity|]. left. auto.
Qed.

End ValidationExtras.

(** ** The engine calls of a fit and the growth of the cache *)

Section FitCacheExtras.
Context `{Env}.

Lemma check_3pl_result_pure (mo : option FittedModel) (w w' : world) :
  (check_3pl mo w).1 = (check_3pl mo w').1.
Proof.
  destruct mo as [m|]; [|reflexivity]. unfold check_3pl.
  destruct (converged m); [|reflexivity]. unfold bind, lift.
  destruct (matrix_col (coef_items m) "a"); [|reflexivity].
  destruct (matrix_col (coef_items m) "b"); [|reflexivity].
  destruct (matrix_col (coef_items m) "g"); [|reflexivity].
  unfold r_if. destruct (lgl_not _) as [[|]|]; reflexivity.
Qed.

(** X14.  A fit calls the engine once or twice: first for the 3PL model,
    then, if at all, for the 2PL model, both times on the matrix it was
    given.  It touches neither the cache nor the response status, and its
    result does not depend on the world it runs in. *)
Theorem fit_irt_model_engine_calls (resp : response_matrix) (w : world) :
  ((fit_irt_model resp w).2 = record_calls [(resp, "3PL")] w \/
   (fit_irt_model resp w).2 = record_calls [(resp, "3PL"); (resp, "2PL")] w) /\
  forall w', (fit_irt_model resp w').1 = (fit_irt_model resp w).1.
Proof.
  split.
  - rewrite fit_irt_model_unfold. cbv zeta.
    destruct (check_3pl _ _).1 as [[r|]|e]; simpl; auto.
  - intros w'. rewrite !fit_irt_model_unfold. cbv zeta.
    rewrite (check_3pl_result_pure _ (record_calls [(resp, "3PL")] w')
               (record_calls [(resp, "3PL")] w)).
    destruct (check_3pl _ _).1 as [[r|]|e]; reflexivity.
Qed.

(** One call: what it stores, it stores under its own key. *)
Lemma get_or_fit_model_stores (key key' : string) (resp : response_matrix)
    (w : world) (v : fit_result) :
  irt_model_cache (get_or_fit_model key' resp w).2 !! key = Some v ->
  irt_model_cache w !! key = Some v \/ (key = key' /\ key <> "").
Proof.
  destruct (decide (key' = "")) as [->|Hne].
  { rewrite get_or_fit_model_empty. auto. }
  destruct (irt_model_cache w !! key') as [v'|] eqn:Hv'.
  { rewrite (get_or_fit_model_hit _ _ _ _ Hne Hv'). auto. }
  rewrite (get_or_fit_model_miss _ _ _ Hne Hv').
  destruct (fit_irt_model_world resp w) as [rest Hw].
  destruct (fit_irt_model resp w) as [[r|e] w1]; simpl in *; subst w1; simpl; auto.
  destruct (decide (key = key')) as [->|Hkk]; [auto|].
  rewrite lookup_insert_ne by congruence. auto.
Qed.

Lemma get_or_fit_model_log (key : string) (resp : response_matrix) (w : world) :
  engine_calls w `prefix_of` engine_calls (get_or_fit_model key resp w).2 /\
  res_status (get_or_fit_model key resp w).2 = res_status w.
Proof.
  destruct (decide (key = "")) as [->|Hne].
  { rewrite get_or_fit_model_empty. split; reflexivity. }
  destruct (irt_model_cache w !! key) as [v'|] eqn:Hv'.
  { rewrite (get_or_fit_model_hit _ _ _ _ Hne Hv'). split; reflexivity. }
  rewrite (get_or_fit_model_miss _ _ _ Hne Hv').
  destruct (fit_irt_model_world resp w) as [rest Hw].
  destruct (fit_irt_model resp w) as [[r|e] w1]; simpl in *; subst w1; simpl;
    (split; [apply prefix_app_r; reflexivity | reflexivity]).
Qed.

(** X15.  Whatever calls of [get_or_fit_model] are made, an entry of the
    cache is never replaced nor removed, an entry appears only under a
    non-empty key that was requested, the log of engine calls only grows and
    the response status is not touched. *)
Theorem cache_only_grows (calls : list (string * response_matrix)) (w : world) :
  (forall key v, irt_model_cache w !! key = Some v ->
     irt_model_cache (after_calls calls w) !! key = Some v) /\
  (forall key v, irt_model_cache (after_calls calls w) !! key = Some v ->
     irt_model_cache w !! key = Some v \/ (key ∈ calls.*1 /\ key <> "")) /\
  engine_calls w `prefix_of` engine_calls (after_calls calls w) /\
  res_status (after_calls calls w) = res_status w.
Proof.
  revert w. induction calls as [|[key' resp] calls IH]; intros w; simpl.
  - repeat split; auto.
  - destruct (IH (get_or_fit_model key' resp w).2) as (IH1 & IH2 & IH3 & IH4).
    destruct (get_or_fit_model_log key' resp w) as [Hlog Hst].
    split; [|split; [|split]].
    + intros key v Hv. apply IH1, get_or_fit_model_keeps, Hv.
    + intros key v Hv. destruct (IH2 key v Hv) as [Hmid | [Hin Hne]].
      * destruct (get_or_fit_model_stores key key' resp w v Hmid)
          as [Hw | [-> Hne]]; [left; exact Hw|].
        right. split; [left | exact Hne].
      * right. split; [right; exact Hin | exact Hne].
    + etransitivity; [exact Hlog | exact IH3].
    + rewrite IH4. exact Hst.
Qed.

End FitCacheExtras.

(** ** Item ids read back *)

Lemma pretty_N_char_digit (x : N) : is_digit (pretty_N_char (x `mod` 10)) = true.
Proof.
  assert (Hlt : (x `mod` 10 < 10)%N) by (apply N.mod_lt; discriminate).
  destruct (x `mod` 10)%N as [|p]; [reflexivity|].
  do 4 (destruct p as [p|p|]; try reflexivity; try lia).
Qed.

Lemma pretty_N_go_digits (x : N) (s : string) :
  only_digits s = true -> only_digits (pretty_N_go x s) = true.
Proof.
  revert s. induction (N.lt_wf_0 x) as [x _ IH]. intros s Hs.
  destruct (decide (x = 0%N)) as [->|Hx].
  - rewrite pretty_N_go_0. exact Hs.
  - rewrite pretty_N_go_step by lia. apply IH.
    + apply N.div_lt; lia.
    + simpl. rewrite pretty_N_char_digit. exact Hs.
Qed.

Lemma pretty_nat_digits (i : nat) : only_digits (pretty i) = true.
Proof.
  unfold pretty, pretty_nat, pretty, pretty_N.
  destruct (decide (N.of_nat i = 0%N)); [reflexivity|].
  apply pretty_N_go_digits. reflexivity.
Qed.

Lemma gsub_item_digits (s : string) : only_digits s = true -> gsub_item s = s.
Proof.
  induction s as [|c s IH]; [reflexivity|]. simpl only_digits. intros Hd.
  apply andb_true_iff in Hd as [Hc Hs]. specialize (IH Hs).
  unfold is_digit in Hc. simpl in Hc.
  repeat (apply orb_true_iff in Hc as [Hc|Hc];
          [apply Ascii.eqb_eq in Hc; subst c; simpl; rewrite IH; reflexivity|]).
  discriminate.
Qed.

Lemma gsub_item_pretty (k : nat) : gsub_item (item_name k) = pretty k.
Proof.
  change (gsub_item (item_name k)) with (gsub_item (pretty k)).
  apply gsub_item_digits, pretty_nat_digits.
Qed.

(** X16.  The id of an item is read back to its number: removing "item_"
    from the id item_k leaves the decimal digits of k, which hold no
    further "item_" to remove, and two items have the same id only if they
    are the same item. *)
Theorem gsub_item_item_name (i j : nat) :
  gsub_item (item_name i) = pretty i /\
  only_digits (gsub_item (item_name i)) = true /\
  (item_name i = item_name j -> i = j).
Proof.
  split; [apply gsub_item_pretty|]. split; [|apply item_name_inj].
  rewrite gsub_item_pretty. apply pretty_nat_digits.
Qed.

(** ** The endpoints once the model is loaded *)

Lemma rows_of_item_app (i : nat) (d1 d2 : list curve_row) :
  rows_of_item i (d1 ++ d2) = rows_of_item i d1 ++ rows_of_item i d2.
Proof. unfold rows_of_item. apply List.filter_app. Qed.

Lemma rows_of_item_same (i : nat) (d : list curve_row) :
  Forall (fun r => row_item_id r = item_name i) d -> rows_of_item i d = d.
Proof.
  induction 1 as [|r d Hr _ IH]; [reflexivity|]. unfold rows_of_item in *.
  simpl. rewrite Hr, String.eqb_refl, IH. reflexivity.
Qed.

Lemma rows_of_item_other (i j : nat) (d : list curve_row) :
  i <> j -> Forall (fun r => row_item_id r = item_name j) d -> rows_of_item i d = [].
Proof.
  intros Hij. induction 1 as [|r d Hr _ IH]; [reflexivity|]. unfold rows_of_item in *.
  simpl. rewrite Hr.
  destruct (String.eqb (item_name j) (item_name i)) eqn:E; [|exact IH].
  apply String.eqb_eq, item_name_inj in E. congruence.
Qed.

(** A long table made of one block per item, restricted to one item. *)
Lemma rows_of_item_concat (f : nat -> list curve_row) (items : list nat) (i : nat) :
  (forall j, Forall (fun r => row_item_id r = item_name j) (f j)) ->
  NoDup items -> i ∈ items ->
  rows_of_item i (concat (map f items)) = f i.
Proof.
  intros Hids Hnd. induction Hnd as [|j items Hj Hnd IH]; intros Hi; [inversion Hi|].
  simpl. rewrite rows_of_item_app.
  assert (Hrest : i ∉ items -> rows_of_item i (concat (map f items)) = []).
  { clear -Hids. intros Hni. induction items as [|k items IHk]; [reflexivity|].
    simpl. rewrite rows_of_item_app, (rows_of_item_other i k).
    - apply IHk. intros Hin. apply Hni. right. exact Hin.
    - intros ->. apply Hni. left.
    - apply Hids. }
  destruct (decide (i = j)) as [->|Hij].
  - rewrite (rows_of_item_same j (f j) (Hids j)), (Hrest Hj), app_nil_r. reflexivity.
  - apply elem_of_cons in Hi as [Hi|Hi]; [congruence|].
    rewrite (rows_of_item_other i j (f j) Hij (Hids j)). apply IH, Hi.
Qed.

Lemma r_colon_1_NoDup (n : nat) : NoDup (r_colon_1 n).
Proof.
  destruct n; [|apply NoDup_seq].
  repeat constructor; rewrite ?elem_of_cons, ?elem_of_nil; intuition discriminate.
Qed.

Lemma r_colon_1_elem (n i : nat) : (1 <= i <= n)%nat -> i ∈ r_colon_1 n.
Proof.
  intros Hi. destruct n; [lia|]. apply elem_of_seq. lia.
Qed.

Lemma data_frame_ids (th v : list num) (id : string) (rows : list curve_row) :
  data_frame th v id = Ok rows -> Forall (fun r => row_item_id r = id) rows.
Proof.
  unfold data_frame. destruct (bool_decide _); [discriminate|].
  destruct (bool_decide _); [|discriminate]. intros [= <-].
  apply Forall_fmap, Forall_forall. intros k _. reflexivity.
Qed.

(** A list of computations fails with the error of the first one that
    fails. *)
Lemma result_all_map_first_Err {A B} (f : A -> result B) (items : list A)
    (e : condition) :
  result_all (map f items) = Err e <->
  exists before j after,
    items = before ++ j :: after /\
    Forall (fun k => exists x, f k = Ok x) before /\ f j = Err e.
Proof.
  induction items as [|i items IH]; simpl.
  - split; [discriminate|]. intros (before & j & after & Hsplit & _).
    destruct before; discriminate.
  - destruct (f i) as [x|e0] eqn:Hi; simpl.
    + split.
      * intros Hall.
        destruct (result_all (map f items)) as [xs|e1] eqn:Hrest; [discriminate|].
        injection Hall as ->.
        destruct (proj1 IH eq_refl) as (before & j & after & -> & Hb & Hj).
        exists (i :: before), j, after. split; [reflexivity|].
        split; [constructor; [eauto | exact Hb] | exact Hj].
      * intros (before & j & after & Hsplit & Hb & Hj).
        destruct before as [|i0 before]; simpl in Hsplit.
        -- injection Hsplit as -> _. congruence.
        -- injection Hsplit as -> ->. apply Forall_cons in Hb as [_ Hb].
           rewrite (proj2 IH); [reflexivity|]. eauto 6.
    + split.
      * intros [= ->]. exists [], i, items. split; [reflexivity|].
        split; [constructor | exact Hi].
      * intros (before & j & after & Hsplit & Hb & Hj).
        destruct before as [|i0 before]; simpl in Hsplit.
        -- injection Hsplit as -> _. congruence.
        -- injection Hsplit as -> _. apply Forall_cons in Hb as [[x Hx] _].
           congruence.
Qed.

Section EndpointExtras.
Context `{Env}.

Lemma iif_item_ids (m : FittedModel) (j : nat) :
  Forall (fun r => row_item_id r = item_name j) (iif_item m j).
Proof.
  assert (Hmiss : Forall (fun r => row_item_id r = item_name j)
            (map (fun t => {| row_theta := t; row_value := NA;
                              row_item_id := item_name j |})
                 (round_all theta 6))).
  { apply Forall_fmap, Forall_forall. intros t _. reflexivity. }
  unfold iif_item, result_bind, result_catch.
  destruct (extract_item m (num_of_nat j)) as [item|e]; [|exact Hmiss].
  destruct (iteminfo item) as [info|e]; [|exact Hmiss].
  destruct (data_frame _ _ _) as [rows|e] eqn:E; [|exact Hmiss].
  exact (data_frame_ids _ _ _ _ E).
Qed.

(** Validation that accepts a table leaves the world as it was. *)
Lemma validate_and_clean_data_world (data_path : option string) (w w' : world)
    (dl : data_list) :
  validate_and_clean_data data_path w = (Ok dl, w') -> w' = w.
Proof.
  destruct data_path as [path|]; [|discriminate]. intros Hv.
  destruct (read_csv path) as [resp|e] eqn:Hread;
    [|unfold validate_and_clean_data, bind, lift in Hv; rewrite Hread in Hv;
      discriminate].
  destruct (forallb in_binary (as_vector resp)) eqn:Hbin;
    [|rewrite (validate_nonbinary path resp w Hread Hbin) in Hv; discriminate].
  rewrite (validate_binary path resp w Hread Hbin) in Hv.
  destruct (bool_decide _); [discriminate|]. injection Hv as _ <-. reflexivity.
Qed.

(** A loaded model leaves the response status as it was. *)
Lemma load_model_status (data_path : option string) (w w1 : world)
    (x : data_list * fit_result) :
  load_model data_path w = (Ok x, w1) -> res_status w1 = res_status w.
Proof.
  unfold load_model, bind. intros Hl.
  destruct (validate_and_clean_data data_path w) as [[dl|e] w0] eqn:Hv;
    [|discriminate].
  rewrite (validate_and_clean_data_world _ _ _ _ Hv) in *.
  destruct (get_or_fit_model_log (path_name data_path) (resp_clean dl) w)
    as [_ Hst].
  destruct (get_or_fit_model _ _ w) as [[fr|e] w2]; [|discriminate].
  injection Hl as _ <-. exact Hst.
Qed.

(** X17.  Once the model is loaded the /iif handler always answers with
    status success and leaves the response status untouched; in its long
    table the rows that carry the id of an item are exactly the curve
    computed for that item alone, and that curve is the curve of 101 missing
    values when the extraction of the item or its information function
    raises, whatever happens for the other items. *)
Theorem iif_isolates_items (data_path : option string) (w w1 : world)
    (data_list : data_list) (fit_result : fit_result) :
  load_model data_path w = (Ok (data_list, fit_result), w1) ->
  exists d,
    iif data_path w = (Ok (Success (IifAll d)), w1) /\
    res_status w1 = res_status w /\
    forall i, (1 <= i <= ncol (resp_clean data_list))%nat ->
      rows_of_item i d = iif_item (model fit_result) i /\
      ((forall item, extract_item (model fit_result) (num_of_nat i) = Ok item ->
                     exists e, iteminfo item = Err e) ->
       rows_of_item i d = missing_curve i /\ length (rows_of_item i d) = 101%nat).
Proof.
  intros Hl. eexists. split; [exact (iif_success _ _ _ _ _ Hl)|].
  split; [exact (load_model_status _ _ _ _ Hl)|].
  intros i Hi.
  assert (Hrows : rows_of_item i
            (concat (map (iif_item (model fit_result))
                         (r_colon_1 (ncol (resp_clean data_list)))))
          = iif_item (model fit_result) i).
  { apply rows_of_item_concat;
      [apply iif_item_ids | apply r_colon_1_NoDup | apply r_colon_1_elem, Hi]. }
  split; [exact Hrows|]. intros Hfail. rewrite Hrows.
  destruct (iif_item_failure (model fit_result) i) as (Hcurve & Hlen & _).
  { destruct (extract_item (model fit_result) (num_of_nat i)) as [item|e] eqn:E.
    - right. destruct (Hfail item eq_refl) as [e He]. eauto.
    - left. eauto. }
  split; assumption.
Qed.

(** The model that was loaded is stored under the path of the request. *)
Lemma load_model_cached (data_path : option string) (w w1 : world)
    (data_list : data_list) (fit_result : fit_result) :
  load_model data_path w = (Ok (data_list, fit_result), w1) ->
  irt_model_cache w1 !! path_name data_path = Some fit_result.
Proof.
  unfold load_model, bind. intros Hl.
  destruct (validate_and_clean_data data_path w) as [[dl|e] w0]; [|discriminate].
  destruct (get_or_fit_model (path_name data_path) (resp_clean dl) w0)
    as [[fr|e] w2] eqn:Hg; [|discriminate].
  injection Hl as _ <- <-. exact (proj2 (get_or_fit_model_Ok _ _ _ _ _ Hg)).
Qed.

(** X18.  The /icc handler for all items, by contrast, fails as a whole:
    when the curve of some item cannot be computed it answers with status
    error and response status 500, and its message is that of the first
    item of 1:n that fails, every item before it having succeeded; the
    model that was loaded stays stored in the cache under the path of the
    request. *)
Theorem icc_fails_as_a_whole (data_path : option string) (w w1 : world)
    (data_list : data_list) (fit_result : fit_result) (i : nat) (e : condition) :
  load_model data_path w = (Ok (data_list, fit_result), w1) ->
  i ∈ r_colon_1 (ncol (resp_clean data_list)) ->
  icc_item (model fit_result) i = Err e ->
  exists before j after e',
    r_colon_1 (ncol (resp_clean data_list)) = before ++ j :: after /\
    Forall (fun k => exists rows, icc_item (model fit_result) k = Ok rows)
           before /\
    icc_item (model fit_result) j = Err e' /\
    icc data_path None w = (Ok (Failure (message e')), with_status 500 w1) /\
    irt_model_cache (with_status 500 w1) !! path_name data_path
      = Some fit_result.
Proof.
  intros Hl Hi He.
  destruct (result_all_is_Err
              (map (icc_item (model fit_result))
                   (r_colon_1 (ncol (resp_clean data_list)))) e) as [e' He'].
  { apply list_elem_of_fmap. exists i. split; [symmetry; exact He | exact Hi]. }
  destruct (proj1 (result_all_map_first_Err _ _ _) He')
    as (before & j & after & Hsplit & Hbefore & Hj).
  exists before, j, after, e'. split; [exact Hsplit|]. split; [exact Hbefore|].
  split; [exact Hj|]. split; [|exact (load_model_cached _ _ _ _ _ Hl)].
  unfold icc, tryCatch, bind at 1. rewrite Hl. cbv beta iota zeta.
  unfold bind, lift. rewrite He'. reflexivity.
Qed.

(** X19.  Asked for one item by its id item_k, the /icc handler answers
    with the probabilities of item number k, provided the reading of
    numbers maps the decimal digits of k to k. *)
Theorem icc_single_item (data_path : option string) (w w1 : world)
    (data_list : data_list) (fit_result : fit_result) (k : nat)
    (item : item_object) (probs : list num) :
  load_model data_path w = (Ok (data_list, fit_result), w1) ->
  as_numeric_chr (pretty k) = num_of_nat k ->
  extract_item (model fit_result) (num_of_nat k) = Ok item ->
  probtrace item = Ok probs ->
  icc data_path (Some (item_name k)) w
  = (Ok (Success (IccItem (round_all theta 6) (round_all probs 8) (item_name k))),
     w1).
Proof.
  intros Hl Hnum Hitem Hprobs.
  unfold icc, tryCatch, bind at 1. rewrite Hl. cbv beta iota zeta.
  rewrite gsub_item_pretty, Hnum.
  unfold bind, lift, result_bind. rewrite Hitem, Hprobs. reflexivity.
Qed.

(** X20.  Once the model is loaded the /testinfo handler always answers
    with status success and 101 ability values; when the test information
    of the engine raises, the 101 information values are all missing. *)
Theorem testinfo_endpoint_always_succeeds (data_path : option string)
    (w w1 : world) (data_list : data_list) (fit_result : fit_result) :
  load_model data_path w = (Ok (data_list, fit_result), w1) ->
  exists th info,
    testinfo_endpoint data_path w = (Ok (Success (TestInformation th info)), w1) /\
    length th = 101%nat /\
    (forall e, testinfo (model fit_result) = Err e ->
       info = replicate 101 NA) /\
    (forall v, testinfo (model fit_result) = Ok v -> info = round_all v 8).
Proof.
  intros Hl. eexists. eexists. split.
  - unfold testinfo_endpoint, tryCatch, bind. rewrite Hl. reflexivity.
  - split; [unfold round_all; rewrite length_map; reflexivity|].
    unfold test_information_of. split.
    + intros e ->. reflexivity.
    + intros v ->. reflexivity.
Qed.

(** X21.  The /analyze handler never answers with an error payload: every
    failure, of validation as of fitting, ends in the error raised by its
    own handler, with response status 500, so that no message of the
    failure reaches the caller through the payload. *)
Theorem analyze_never_returns_error_payload (data_path : option string)
    (w : world) :
  (exists p w1, analyze data_path w = (Ok (Success p), w1) /\
                exists x, load_model data_path w = (Ok x, w1)) \/
  (exists w1, analyze data_path w
              = (Err {| message := "$ operator is invalid for atomic vectors" |},
                 with_status 500 w1)).
Proof.
  destruct (load_model data_path w) as [[[dl fr]|e] w1] eqn:Hl.
  - destruct (logLik (model fr)) as [ll|e] eqn:Hll.
    + left. eexists. eexists. split; [|eauto].
      unfold analyze, tryCatch, bind, lift. rewrite Hl, Hll. reflexivity.
    + right. exists w1.
      unfold analyze, tryCatch, bind, lift. rewrite Hl, Hll. reflexivity.
  - right. exists w1. unfold analyze, tryCatch, bind. rewrite Hl. reflexivity.
Qed.

End EndpointExtras.

(** ** Repeated requests *)

(** A table that validation accepted is accepted again, in any world, as
    long as the file still reads as the same table. *)
Lemma validate_and_clean_data_again (first later : Env)
    (data_path : option string) (w w' w2 : world) (dl : data_list) :
  validate_and_clean_data (H := first) data_path w = (Ok dl, w') ->
  @read_csv later (path_name data_path) = @read_csv first (path_name data_path) ->
  validate_and_clean_data (H := later) data_path w2 = (Ok dl, w2).
Proof.
  destruct data_path as [path|]; [|discriminate]. simpl path_name.
  intros Hv Hfile.
  destruct (@read_csv first path) as [resp|e] eqn:Hread;
    [|unfold validate_and_clean_data, bind, lift in Hv; rewrite Hread in Hv;
      discriminate].
  destruct (forallb in_binary (as_vector resp)) eqn:Hbin;
    [|rewrite (validate_nonbinary path resp w Hread Hbin) in Hv; discriminate].
  rewrite (validate_binary path resp w Hread Hbin) in Hv.
  rewrite (validate_binary (H := later) path resp w2 Hfile Hbin).
  destruct (bool_decide _); [discriminate|]. injection Hv as <- _. reflexivity.
Qed.

(** A model that was loaded is loaded again, from the cache alone, in every
    world whose cache has kept the entries, as long as the file still reads
    as the same table. *)
Lemma load_model_again (first later : Env) (data_path : option string)
    (w w1 w2 : world) (x : data_list * fit_result) :
  load_model (H := first) data_path w = (Ok x, w1) ->
  irt_model_cache w1 ⊆ irt_model_cache w2 ->
  @read_csv later (path_name data_path) = @read_csv first (path_name data_path) ->
  load_model (H := later) data_path w2 = (Ok x, w2).
Proof.
  unfold load_model, bind. intros Hl Hsub Hfile.
  destruct (validate_and_clean_data (H := first) data_path w)
    as [[dl|e] w0] eqn:Hv; [|discriminate].
  rewrite (validate_and_clean_data_again first later _ _ _ w2 _ Hv Hfile).
  destruct (get_or_fit_model (H := first) (path_name data_path) (resp_clean dl) w0)
    as [[fr|e] w3] eqn:Hg; [|discriminate].
  destruct (get_or_fit_model_Ok _ _ _ _ _ Hg) as [Hne Hin].
  injection Hl as <- <-.
  rewrite (get_or_fit_model_hit (H := later) _ _ w2 fr Hne); [reflexivity|].
  exact (lookup_weaken _ _ _ _ Hin Hsub).
Qed.

(** X22.  A request whose model could be loaded can be repeated: in every
    later state whose cache has kept the entries, and as long as the file
    still reads as the same table, each of the four handlers gives the same
    answer as the first time, calls the engine no more and leaves the cache
    as it is.  The environment of the later request has the rounding and
    the reading of numbers of the first; its engine and its other files are
    arbitrary. *)
Theorem repeated_request_served_from_cache (first later : Env)
    (data_path item_id : option string) (w w1 w2 : world)
    (x : data_list * fit_result) :
  load_model (H := first) data_path w = (Ok x, w1) ->
  irt_model_cache w1 ⊆ irt_model_cache w2 ->
  @read_csv later (path_name data_path) = @read_csv first (path_name data_path) ->
  @round_finite later = @round_finite first ->
  @as_numeric_chr later = @as_numeric_chr first ->
  Forall2 (served_again w w2) (handlers (H := first) data_path item_id)
                              (handlers (H := later) data_path item_id).
Proof.
  intros Hl Hsub Hfile Hround Hnum.
  pose proof (load_model_again first later _ _ _ _ _ Hl Hsub Hfile) as Hl2.
  destruct x as [dl fr].
  destruct first as [e1 rc1 rf1 ac1 an1 sd1], later as [e2 rc2 rf2 ac2 an2 sd2].
  simpl in Hround, Hnum. subst rf2 an2.
  unfold handlers, served_again.
  repeat (apply List.Forall2_cons); [| | | |apply List.Forall2_nil].
  - unfold analyze, tryCatch, bind, lift. rewrite Hl, Hl2.
    destruct (logLik (model fr)); repeat split; reflexivity.
  - unfold icc, tryCatch, bind, lift. rewrite Hl, Hl2.
    destruct item_id as [id|].
    + change (@as_numeric_chr (Build_Env e2 rc2 rf1 ac2 an1 sd2)) with an1.
      change (@as_numeric_chr (Build_Env e1 rc1 rf1 ac1 an1 sd1)) with an1.
      destruct (result_bind _ _); repeat split; reflexivity.
    + change (icc_item (H := Build_Env e2 rc2 rf1 ac2 an1 sd2))
        with (icc_item (H := Build_Env e1 rc1 rf1 ac1 an1 sd1)).
      destruct (result_all _); repeat split; reflexivity.
  - unfold iif, tryCatch, bind. rewrite Hl, Hl2. repeat split; reflexivity.
  - unfold testinfo_endpoint, tryCatch, bind. rewrite Hl, Hl2.
    repeat split; reflexivity.
Qed.

(** ** The curve lists of the standalone script *)


Section StandaloneFacts.
Context `{Env}.












End StandaloneFacts.

(** ** The further theorems at concrete inputs *)

(** X3 at a concrete input: a row with discrimination 1 and difficulty 0. *)
Lemma clean_parameters_fixes_rows_within_bounds_witness :
  clean_parameters [row_with_discrimination (Fin 1)] "3PL"
  = [row_with_discrimination (Fin 1)].
Proof.
  apply clean_parameters_fixes_rows_within_bounds.
  apply List.Forall_cons; [|apply List.Forall_nil].
  split; [|split; [|intros _]]; right; eexists; (split; [reflexivity|]);
    split; discriminate.
Defined.

(** X8 at a concrete input: a coefficient list of two items and the group
    parameters. *)
Lemma extract_standard_errors_shape_witness :
  extract_standard_errors model_with_se "3PL"
    = Some {| colnames := ["a"; "b"; "g"; "u"];
              mrows := [[Fin (1#10); Fin (1#5); Fin (1#20); NA];
                        [NA; NA; NA; NA]] |} /\
  exists l, coef_printSE model_with_se = Ok l /\
            2%nat = length (visited_items l).
Proof.
  assert (Hse : extract_standard_errors model_with_se "3PL"
                = Some {| colnames := ["a"; "b"; "g"; "u"];
                          mrows := [[Fin (1#10); Fin (1#5); Fin (1#20); NA];
                                    [NA; NA; NA; NA]] |})
    by (vm_compute; reflexivity).
  split; [exact Hse|].
  exact (proj2 (proj2 (proj2 (extract_standard_errors_shape _ _ _ Hse)))).
Defined.

(** X10 at a concrete input: a model without standard errors. *)
Lemma item_parameters_of_without_standard_errors_witness :
  Forall (fun r => se_discrimination r = round (H := env_at_bound) (Fin 0) 4 /\
                   se_difficulty r = round (H := env_at_bound) (Fin 0) 4 /\
                   se_guessing r = round (H := env_at_bound) (Fin 0) 4)
         (item_parameters_of (H := env_at_bound)
            (sample_model true rows_plain 0) "3PL").
Proof.
  apply (item_parameters_of_without_standard_errors (H := env_at_bound)).
  reflexivity.
Defined.

(** X11 at a concrete input: the model type "2PL". *)
Lemma item_parameters_of_simple_model_witness :
  map item_id (item_parameters_of (H := env_at_bound)
                 (sample_model false rows_plain 0) "2PL")
  = map item_name (seq 1 3).
Proof.
  apply (item_parameters_of_simple_model (H := env_at_bound)
           (sample_model false rows_plain 0) "2PL").
  discriminate.
Defined.

(** X12 at a concrete input: ten valid rows among twelve. *)
Lemma validate_and_clean_data_accepted_witness :
  let dl := {| resp_clean := {| ncol := 2; cells := replicate 10 [Fin 1; Fin 0] |};
               original_resp := table_ten |} in
  validate_and_clean_data (H := env_ten) (Some "data.csv") fresh = (Ok dl, fresh) /\
  cells (resp_clean dl) `sublist_of` cells (original_resp dl) /\
  (10 <= nrow (resp_clean dl))%nat.
Proof.
  intros dl.
  assert (Hv : validate_and_clean_data (H := env_ten) (Some "data.csv") fresh
               = (Ok dl, fresh)) by (vm_compute; reflexivity).
  split; [exact Hv|].
  destruct (validate_and_clean_data_accepted (H := env_ten) _ _ _ _ Hv)
    as (_ & _ & _ & Hsub & Hrows & _).
  split; assumption.
Defined.

(** X13 at a concrete input: a request without a path. *)
Lemma validate_and_clean_data_rejections_witness :
  validate_and_clean_data (H := env_ten) None fresh
    = (Err {| message := "errordata_path required" |}, with_status 400 fresh) /\
  irt_model_cache (with_status 400 fresh) = irt_model_cache fresh /\
  engine_calls (with_status 400 fresh) = engine_calls fresh.
Proof.
  assert (Hv : validate_and_clean_data (H := env_ten) None fresh
               = (Err {| message := "errordata_path required" |},
                  with_status 400 fresh)) by reflexivity.
  split; [exact Hv|].
  destruct (validate_and_clean_data_rejections (H := env_ten) _ _ _ _ Hv)
    as (Hcache & Hcalls & _).
  split; assumption.
Defined.

(** X17 at a concrete input: the third of three items has no information
    function. *)
Lemma iif_isolates_items_witness :
  load_model (H := env_broken_item) (Some "data.csv") fresh
    = (Ok (mixed_data, first_entry), after_first_fit) /\
  exists d,
    iif (H := env_broken_item) (Some "data.csv") fresh
      = (Ok (Success (IifAll d)), after_first_fit) /\
    rows_of_item 3 d = missing_curve (H := env_broken_item) 3 /\
    rows_of_item 1 d = iif_item (H := env_broken_item) (model first_entry) 1.
Proof.
  assert (Hl : load_model (H := env_broken_item) (Some "data.csv") fresh
               = (Ok (mixed_data, first_entry), after_first_fit))
    by (vm_compute; reflexivity).
  split; [exact Hl|].
  destruct (iif_isolates_items (H := env_broken_item) _ _ _ _ _ Hl)
    as (d & Hd & _ & Hitems).
  exists d. split; [exact Hd|]. split.
  - refine (proj1 (proj2 (Hitems 3%nat _) _)).
    + split; [apply le_S, le_S, le_n | apply le_n].
    + intros item [= <-]. eexists. reflexivity.
  - refine (proj1 (Hitems 1%nat _)).
    split; [apply le_n | apply le_S, le_S, le_n].
Defined.

(** X18 at a concrete input: the probabilities of the second of three
    items cannot be computed. *)
Lemma icc_fails_as_a_whole_witness :
  let entry := {| model := model_without_probabilities 2; type := "3PL" |} in
  let w1 := {| irt_model_cache := <["data.csv" := entry]> ∅;
               engine_calls := [(table_mixed, "3PL")];
               res_status := 200 |} in
  exists before j after e',
    [1; 2; 3]%nat = before ++ j :: after /\
    Forall (fun k => exists rows,
              icc_item (H := env_broken_probabilities) (model entry) k = Ok rows)
           before /\
    icc_item (H := env_broken_probabilities) (model entry) j = Err e' /\
    icc (H := env_broken_probabilities) (Some "data.csv") None fresh
    = (Ok (Failure (message e')), with_status 500 w1) /\
    irt_model_cache (with_status 500 w1) !! "data.csv" = Some entry.
Proof.
  intros entry w1.
  assert (Hl : load_model (H := env_broken_probabilities) (Some "data.csv") fresh
               = (Ok (mixed_data, entry), w1))
    by (vm_compute; reflexivity).
  apply (icc_fails_as_a_whole (H := env_broken_probabilities) _ _ _ _ _
           2%nat {| message := "probtrace failed" |} Hl).
  - right. left.
  - reflexivity.
Defined.

(** X19 at a concrete input: the item item_2. *)
Lemma icc_single_item_witness :
  icc (H := env_broken_item) (Some "data.csv") (Some "item_2") fresh
  = (Ok (Success (IccItem (round_all (H := env_broken_item) theta 6)
                          (round_all (H := env_broken_item)
                             (replicate 101 (Fin (1#2))) 8)
                          "item_2")),
     after_first_fit).
Proof.
  apply (icc_single_item (H := env_broken_item) (Some "data.csv") fresh
           after_first_fit mixed_data first_entry 2 flat_item);
    [vm_compute; reflexivity | reflexivity | reflexivity | reflexivity].
Defined.

(** X20 at a concrete input. *)
Lemma testinfo_endpoint_always_succeeds_witness :
  exists th info,
    testinfo_endpoint (H := env_broken_item) (Some "data.csv") fresh
      = (Ok (Success (TestInformation th info)), after_first_fit) /\
    length th = 101%nat.
Proof.
  destruct (testinfo_endpoint_always_succeeds (H := env_broken_item)
              (Some "data.csv") fresh after_first_fit mixed_data first_entry)
    as (th & info & Hrun & Hth & _); [vm_compute; reflexivity|].
  exists th, info. split; assumption.
Defined.

(** X22 at a concrete input: the request repeated when the engine has
    started to fail. *)
Lemma repeated_request_served_from_cache_witness :
  Forall2 (served_again fresh after_first_fit)
          (handlers (H := env_broken_item) (Some "data.csv") (Some "item_1"))
          (handlers (H := env_failing) (Some "data.csv") (Some "item_1")).
Proof.
  apply (repeated_request_served_from_cache env_broken_item env_failing
           (Some "data.csv") (Some "item_1") fresh after_first_fit
           after_first_fit (mixed_data, first_entry));
    [vm_compute; reflexivity | reflexivity | reflexivity | reflexivity
     | reflexivity].
Defined.

